(** * A shallow embedding of [scraper.py] (CIS Workbench scraper)

    The development follows the source file top to bottom:
    - Python values and exceptions, the insertion-ordered [dict];
    - [__parse_text] and [str.strip];
    - [__extract_subsections] (the navigation flattener) and [__parse_navtree];
    - [__fetch_control] over a black-box HTML parser;
    - [main]: the completion-draining loop, [total], and the two writers;
    - start-up: [__init__], [__create_path], [__get_title_and_version].

    Strings are sequences of code points below 256 ([string]); the HTTP
    session, the HTML parser and the completion order of the thread pool are
    parameters of the program. *)

From Stdlib Require Import List String Ascii Bool Arith ZArith Lia.
From Stdlib Require Import DecimalString Permutation Sorted.
Import ListNotations.
Local Open Scope string_scope.
Local Open Scope list_scope.

(* ================================================================== *)
(** ** Python values, exceptions and results *)

(** The scalar JSON values a navigation node carries. *)
Inductive value : Type :=
| VStr (s : string)
| VInt (z : Z).

(** [str(v)], as used by f-string interpolation. *)
Definition py_str (v : value) : string :=
  match v with
  | VStr s => s
  | VInt z => NilZero.string_of_int (Z.to_int z)
  end.

(** Python [==] on these values (a [str] never equals an [int]). *)
Definition value_eqb (a b : value) : bool :=
  match a, b with
  | VStr s, VStr t => String.eqb s t
  | VInt x, VInt y => Z.eqb x y
  | _, _ => false
  end.

Inductive exn : Type :=
| KeyError (key : string)
| AttributeError (msg : string)
| RequestException (msg : string)
| IOError (msg : string).

(** [str(e)] *)
Definition exn_str (e : exn) : string :=
  match e with
  | KeyError k => "'" ++ k ++ "'"
  | AttributeError m => m
  | RequestException m => m
  | IOError m => m
  end.

Inductive result (A : Type) : Type :=
| Ok (a : A)
| Raise (e : exn).
Arguments Ok {A} a.
Arguments Raise {A} e.

Definition bind {A B : Type} (r : result A) (k : A -> result B) : result B :=
  match r with
  | Ok a => k a
  | Raise e => Raise e
  end.

Notation "x <- r ;; k" := (bind r (fun x => k))
  (at level 61, r at next level, right associativity).

(** Truthiness of a [str] object. *)
Definition truthy (s : string) : bool :=
  match s with
  | EmptyString => false
  | String _ _ => true
  end.

(* ================================================================== *)
(** ** The insertion-ordered dictionary *)

Module Dict.
Section Dict.
Context {K V : Type}.
Variable eqb : K -> K -> bool.

(** [d[k] = v]: an existing key keeps its position, a new one goes last. *)
Fixpoint set (d : list (K * V)) (k : K) (v : V) : list (K * V) :=
  match d with
  | [] => [(k, v)]
  | (k', v') :: rest =>
      if eqb k' k then (k', v) :: rest else (k', v') :: set rest k v
  end.

(** [d.get(k)] *)
Fixpoint get (d : list (K * V)) (k : K) : option V :=
  match d with
  | [] => None
  | (k', v') :: rest => if eqb k' k then Some v' else get rest k
  end.

Definition keys (d : list (K * V)) : list K := map fst d.
Definition values (d : list (K * V)) : list V := map snd d.
Definition len (d : list (K * V)) : nat := List.length d.

(** A dict display [{k1: v1, ...}]: the pairs are stored left to right. *)
Definition literal (kvs : list (K * V)) : list (K * V) :=
  fold_left (fun d kv => set d (fst kv) (snd kv)) kvs [].

End Dict.
End Dict.

(* ================================================================== *)
(** ** [str.strip] and [__parse_text] *)

(** [str.isspace] on one code point (the code points below 256 for which
    CPython's [_PyUnicode_IsWhitespace] answers yes). *)
Definition isspace (c : ascii) : bool :=
  let n := nat_of_ascii c in
  (((9 <=? n) && (n <=? 13)) || ((28 <=? n) && (n <=? 32))
   || (n =? 133) || (n =? 160))%nat.

Fixpoint lstrip (s : string) : string :=
  match s with
  | EmptyString => EmptyString
  | String c r => if isspace c then lstrip r else s
  end.

Fixpoint rstrip (s : string) : string :=
  match s with
  | EmptyString => EmptyString
  | String c r =>
      match rstrip r with
      | EmptyString => if isspace c then EmptyString else String c EmptyString
      | r' => String c r'
      end
  end.

(** [s.strip()] *)
Definition strip (s : string) : string := rstrip (lstrip s).

Definition parse_text (text : string) : string :=
  let _text := strip text in
  if negb (truthy _text) then "" else _text.

(** Vocabulary for stating what trimming means. *)
Fixpoint whitespace_only (s : string) : bool :=
  match s with
  | EmptyString => true
  | String c r => isspace c && whitespace_only r
  end.

Definition head_space (s : string) : bool :=
  match s with
  | EmptyString => false
  | String c _ => isspace c
  end.

Fixpoint last_space (s : string) : bool :=
  match s with
  | EmptyString => false
  | String c EmptyString => isspace c
  | String _ r => last_space r
  end.

(** Neither the first nor the last character is whitespace. *)
Definition is_trimmed (s : string) : bool :=
  negb (head_space s) && negb (last_space s).


(* ================================================================== *)
(** ** The navigation tree and [__extract_subsections] *)

(** A node of the navigation tree: a JSON object.  Each field is [None]
    when the key is missing from the object; the two child keys hold lists
    of nodes. *)
#[local] Unset Elimination Schemes.
Inductive node : Type :=
| Node (id title view_level section_id : option value)
       (subsections_for_nav_tree recommendations_for_nav_tree : option (list node)).
#[local] Set Elimination Schemes.

Definition n_id (n : node) := let (x, _, _, _, _, _) := n in x.
Definition n_title (n : node) := let (_, x, _, _, _, _) := n in x.
Definition n_view_level (n : node) := let (_, _, x, _, _, _) := n in x.
Definition n_section_id (n : node) := let (_, _, _, x, _, _) := n in x.
Definition n_subsections (n : node) := let (_, _, _, _, x, _) := n in x.
Definition n_recommendations (n : node) := let (_, _, _, _, _, x) := n in x.

(** A property of every node of an optional child list. *)
Definition Forall_children (P : node -> Prop) (field : option (list node)) : Prop :=
  match field with
  | Some l => Forall P l
  | None => True
  end.

(** Structural induction through the two child lists. *)
Section NodeInduction.
Variable P : node -> Prop.
Hypothesis step :
  forall id title view_level section_id subs recs,
    Forall_children P subs -> Forall_children P recs ->
    P (Node id title view_level section_id subs recs).

Fixpoint node_ind (n : node) : P n :=
  let all :=
    fix all (l : list node) : Forall P l :=
      match l with
      | [] => Forall_nil P
      | x :: rest => Forall_cons x (node_ind x) (all rest)
      end in
  let all_children (field : option (list node)) : Forall_children P field :=
    match field with
    | Some l => all l
    | None => I
    end in
  match n with
  | Node id title view_level section_id subs recs =>
      step id title view_level section_id subs recs
        (all_children subs) (all_children recs)
  end.
End NodeInduction.

(** The descriptor appended to [navtree_list]. *)
Record LeafItem : Type := mkLeafItem {
  item_id : value;
  item_title : value;
  item_key : string;
  item_url : string
}.

(** [obj[name]] on a scalar field of a node. *)
Definition getitem (field : option value) (name : string) : result value :=
  match field with
  | Some v => Ok v
  | None => Raise (KeyError name)
  end.

(** [key in obj] for the two child keys. *)
Definition contains {A : Type} (field : option A) : bool :=
  match field with
  | Some _ => true
  | None => false
  end.

(** The dict display of lines 71-76, its subscripts evaluated left to right. *)
Definition leaf_item (subsection : node) : result LeafItem :=
  id <- getitem (n_id subsection) "id" ;;
  title <- getitem (n_title subsection) "title" ;;
  view_level <- getitem (n_view_level subsection) "view_level" ;;
  title' <- getitem (n_title subsection) "title" ;;
  section_id <- getitem (n_section_id subsection) "section_id" ;;
  id' <- getitem (n_id subsection) "id" ;;
  Ok {| item_id := id;
        item_title := title;
        item_key := (py_str view_level ++ " " ++ py_str title')%string;
        item_url := ("https://workbench.cisecurity.org/sections/"
                     ++ py_str section_id ++ "/recommendations/"
                     ++ py_str id')%string |}.

(** [a and b] where [a] is a [str] and [b] a [bool], then its truth value. *)
Definition str_and (a : string) (b : bool) : bool :=
  if truthy a then b else false.

(** The condition of line 70:
    [not ("recommendations_for_nav_tree" and "subsections_for_nav_tree" in subsection)]. *)
Definition append_guard (subsection : node) : bool :=
  negb (str_and "recommendations_for_nav_tree"
                (contains (n_subsections subsection))).

(** [navtree_list] is threaded through: each call returns the list as it
    stands after the call's appends. *)
Fixpoint extract_subsections (subsection : node) (navtree_list : list LeafItem)
  {struct subsection} : result (list LeafItem) :=
  let each :=
    fix each (children : list node) (acc : list LeafItem) {struct children}
      : result (list LeafItem) :=
      match children with
      | [] => Ok acc
      | sub :: rest =>
          match extract_subsections sub acc with
          | Ok acc' => each rest acc'
          | Raise e => Raise e
          end
      end in
  match subsection with
  | Node _ _ _ _ subsections recommendations =>
      l1 <- match subsections with
            | Some subs => each subs navtree_list
            | None => Ok navtree_list
            end ;;
      l2 <- match recommendations with
            | Some recs => each recs l1
            | None => Ok l1
            end ;;
      if append_guard subsection
      then item <- leaf_item subsection ;; Ok (l2 ++ [item])
      else Ok l2
  end.

(** A [for] loop calling [__extract_subsections] on each element. *)
Fixpoint extract_each (children : list node) (acc : list LeafItem)
  : result (list LeafItem) :=
  match children with
  | [] => Ok acc
  | sub :: rest =>
      match extract_subsections sub acc with
      | Ok acc' => extract_each rest acc'
      | Raise e => Raise e
      end
  end.

(** *** Vocabulary for the flattener's specification *)

(** The children of a node in the order the two loops visit them. *)
Definition children (n : node) : list node :=
  match n_subsections n with Some subs => subs | None => [] end
  ++ match n_recommendations n with Some recs => recs | None => [] end.

(** The nodes the code appends, in the order it appends them. *)
Fixpoint emitted (n : node) : list node :=
  match n with
  | Node _ _ _ _ subsections recommendations =>
      match subsections with
      | Some subs => flat_map emitted subs
      | None => []
      end
      ++ match recommendations with
         | Some recs => flat_map emitted recs
         | None => []
         end
      ++ (if contains subsections then [] else [n])
  end.

(** A node is internal when it has a subsections or a recommendations key,
    and a leaf when it has neither. *)
Definition is_internal (n : node) : bool :=
  contains (n_subsections n) || contains (n_recommendations n).

Definition is_leaf (n : node) : bool := negb (is_internal n).

(** The leaves met by depth-first descent, subsections before
    recommendations. *)
Fixpoint dfs_leaves (n : node) : list node :=
  match n with
  | Node _ _ _ _ subsections recommendations =>
      match subsections, recommendations with
      | None, None => [n]
      | _, _ =>
          match subsections with
          | Some subs => flat_map dfs_leaves subs
          | None => []
          end
          ++ match recommendations with
             | Some recs => flat_map dfs_leaves recs
             | None => []
             end
      end
  end.

(** Every node of the tree, in pre-order. *)
Fixpoint nodes (n : node) : list node :=
  match n with
  | Node _ _ _ _ subsections recommendations =>
      n :: match subsections with
           | Some subs => flat_map nodes subs
           | None => []
           end
        ++ match recommendations with
           | Some recs => flat_map nodes recs
           | None => []
           end
  end.

(** The four scalar keys a descriptor is built from are present. *)
Definition has_fields (n : node) : bool :=
  contains (n_id n) && contains (n_title n)
  && contains (n_view_level n) && contains (n_section_id n).

(** Well-formed tree: a node is a section, a recommendation group or a bare
    leaf, and every bare leaf carries its four scalar keys. *)
Definition well_formed (n : node) : Prop :=
  forall m, In m (nodes n) -> is_leaf m = true -> has_fields m = true.

(** Trees in which each node holding a recommendations key also holds a
    subsections key. *)
Definition sections_keyed (n : node) : Prop :=
  forall m, In m (nodes n) ->
    contains (n_recommendations m) = true -> contains (n_subsections m) = true.

(** [mapM] in the [result] monad. *)
Fixpoint map_result {A B : Type} (f : A -> result B) (l : list A)
  : result (list B) :=
  match l with
  | [] => Ok []
  | a :: rest => b <- f a ;; bs <- map_result f rest ;; Ok (b :: bs)
  end.

(** The accumulator version against the list of emitted nodes: the code
    appends to [acc] the descriptors of [emitted n], and raises exactly when
    building one of them raises. *)
Definition appends_emitted (n : node) : Prop :=
  forall acc,
    extract_subsections n acc =
      (items <- map_result leaf_item (emitted n) ;; Ok (acc ++ items)).

(** *** Sample trees *)

(** A recommendation: a bare leaf. *)
Definition leaf_A : node :=
  Node (Some (VStr "A")) (Some (VStr "Ensure X")) (Some (VStr "1.1"))
       (Some (VInt 7)) None None.

(** A recommendation group: a recommendations key and no subsections key. *)
Definition group_G : node :=
  Node (Some (VStr "G")) (Some (VStr "Group")) (Some (VStr "1"))
       (Some (VInt 7)) None (Some [leaf_A]).

Definition sample_item : LeafItem :=
  {| item_id := VStr "A";
     item_title := VStr "Ensure X";
     item_key := "1.1 Ensure X";
     item_url := "https://workbench.cisecurity.org/sections/7/recommendations/A" |}.

Definition group_item : LeafItem :=
  {| item_id := VStr "G";
     item_title := VStr "Group";
     item_key := "1 Group";
     item_url := "https://workbench.cisecurity.org/sections/7/recommendations/G" |}.

(* ================================================================== *)
(** ** The parsed detail page and [__fetch_control] *)

(** What [find] needs of a tag of the parsed page: its name, its [id]
    attribute and its text content. *)
Record element : Type := mkElement {
  tag_name : string;
  attr_id : option string;
  text : string
}.

(** The tags of a parsed page, in document order. *)
Definition soup := list element.

Definition matches (name ident : string) (el : element) : bool :=
  String.eqb (tag_name el) name
  && match attr_id el with
     | Some i => String.eqb i ident
     | None => false
     end.

(** [_soup.find(name, {"id": ident})]: the first matching tag, or [None]. *)
Definition find (page : soup) (name ident : string) : option element :=
  List.find (matches name ident) page.

Definition NoneType_has_no_text : exn :=
  AttributeError "'NoneType' object has no attribute 'text'".

(** [self.__parse_text(_soup.find(name, {"id": ident}).text)] *)
Definition extract (page : soup) (name ident : string) : result string :=
  match find page name ident with
  | None => Raise NoneType_has_no_text
  | Some el => Ok (parse_text (text el))
  end.

(** The eight extracted fields with the tag name and [id] each is looked up
    by, in the order [__fetch_control] reads them. *)
Definition locators : list (string * (string * string)) :=
  [ ("assessment_status", ("span", "automated_scoring-recomendtation-data"));
    ("description", ("div", "description-recomendtation-data"));
    ("rationale", ("div", "rationale_statement-recomendtation-data"));
    ("impact", ("div", "impact_statement-recomendtation-data"));
    ("audit", ("div", "audit_procedure-recomendtation-data"));
    ("remediation", ("div", "remediation_procedure-recomendtation-data"));
    ("default_value", ("div", "default_value-recomendtation-data"));
    ("references", ("div", "references-recomendtation-data")) ].

(** A control record is a Python dict from field name to value. *)
Definition ControlRecord := list (string * value).

Definition record_literal : list (string * value) -> ControlRecord :=
  Dict.literal String.eqb.

Definition record_get : ControlRecord -> string -> option value :=
  Dict.get String.eqb.

Inductive format : Type := json | csv.

Definition format_str (f : format) : string :=
  match f with
  | json => "json"
  | csv => "csv"
  end.

(** [self.__BENCHMARK_DATA] *)
Record BenchmarkData : Type := mkBenchmarkData {
  title : string;
  controls : list (value * ControlRecord);
  total : option nat
}.

Inductive file_content : Type :=
| JsonDump (d : BenchmarkData)
| CsvRows (rows : list (list value)).

(** What the run does to the outside: lines printed and files written.
    [EvWrite dir name content]: [open(Path(dir, name), "w")] returned and
    the content was written to it. *)
Inductive event : Type :=
| EvInfo (msg : string)
| EvProgress (completed_count total_count : nat)
| EvError (control_id : value) (e : exn)
| EvWrite (dir name : string) (content : file_content).

Definition nat_str (n : nat) : string := NilZero.string_of_uint (Nat.to_uint n).

(** The text of each printed line. *)
Definition render (ev : event) : string :=
  match ev with
  | EvInfo msg => msg
  | EvProgress i n =>
      "Scraping " ++ nat_str i ++ "/" ++ nat_str n ++ " controls..."
  | EvError control_id e =>
      "Error scraping control " ++ py_str control_id ++ ": " ++ exn_str e
  | EvWrite _ _ _ => ""
  end.

Inductive outcome : Type :=
| Finished
| Exit (code : Z)
| Uncaught (e : exn).

(** The process exit status of an outcome. *)
Definition exit_status (o : outcome) : Z :=
  match o with
  | Finished => 0
  | Exit code => code
  | Uncaught _ => 1
  end.

Record run_state : Type := mkRunState {
  data : BenchmarkData;
  trace : list event
}.

Definition emit (st : run_state) (ev : event) : run_state :=
  {| data := data st; trace := trace st ++ [ev] |}.

(** [self.__BENCHMARK_DATA["controls"][control_id] = record] *)
Definition store_control (st : run_state) (control_id : value)
  (record : ControlRecord) : run_state :=
  {| data := {| title := title (data st);
                controls := Dict.set value_eqb (controls (data st)) control_id record;
                total := total (data st) |};
     trace := trace st |}.

(** [self.__BENCHMARK_DATA["total"] = n] *)
Definition store_total (st : run_state) (n : nat) : run_state :=
  {| data := {| title := title (data st);
                controls := controls (data st);
                total := Some n |};
     trace := trace st |}.

Fixpoint replace (old new : ascii) (s : string) : string :=
  match s with
  | EmptyString => EmptyString
  | String c r =>
      String (if Ascii.eqb c old then new else c) (replace old new r)
  end.

Definition dquote : string := String (ascii_of_nat 34) EmptyString.

(** The header row of the tabular format. *)
Definition header : list string :=
  [ "id"; "key"; "title"; "assessment_status"; "description"; "rationale";
    "impact"; "audit"; "remediation"; "default_value"; "references" ].

(** The rows handed to [csv_writer.writerow], in call order. *)
Definition csv_rows (d : BenchmarkData) : list (list value) :=
  map VStr header
  :: map (fun record : ControlRecord => Dict.values record)
         (Dict.values (controls d)).

Section Program.

(** [self.__SESSION.get(url).text]: the body, or the exception raised. *)
Variable session_get : string -> result string.
(** [BeautifulSoup(html, "html.parser")] *)
Variable create_soup : string -> soup.
(** [self.__SESSION.get(...).json()["navtree"]] *)
Variable navigation_tree : result (list node).
(** [as_completed]: the futures in the order they complete. *)
Variable as_completed :
  list (LeafItem * result ControlRecord) -> list (LeafItem * result ControlRecord).
Variable BENCHMARK_TITLE : string.
Variable FORMAT : format.
Variable OUTPUT : string.
(** [str(Path(directory, name))] *)
Variable path_str : string -> string -> string.
(** [open(output_file, "w")]: [None] when it returns, or what it raises. *)
Variable open_w : string -> option exn.

Definition fetch_control (control : LeafItem) : result ControlRecord :=
  html <- session_get (item_url control) ;;
  let _soup := create_soup html in
  assessment_status <- extract _soup "span" "automated_scoring-recomendtation-data" ;;
  description <- extract _soup "div" "description-recomendtation-data" ;;
  rationale <- extract _soup "div" "rationale_statement-recomendtation-data" ;;
  impact <- extract _soup "div" "impact_statement-recomendtation-data" ;;
  audit <- extract _soup "div" "audit_procedure-recomendtation-data" ;;
  remediation <- extract _soup "div" "remediation_procedure-recomendtation-data" ;;
  default_value <- extract _soup "div" "default_value-recomendtation-data" ;;
  references <- extract _soup "div" "references-recomendtation-data" ;;
  Ok (record_literal
        [ ("id", item_id control);
          ("key", VStr (item_key control));
          ("title", item_title control);
          ("assessment_status", VStr assessment_status);
          ("description", VStr description);
          ("rationale", VStr rationale);
          ("impact", VStr impact);
          ("audit", VStr audit);
          ("remediation", VStr remediation);
          ("default_value", VStr default_value);
          ("references", VStr references) ]).

Definition parse_navtree : list event * result (list LeafItem) :=
  let started := [EvInfo "[*] Parsing navigation tree"] in
  match navigation_tree with
  | Raise e => (started, Raise e)
  | Ok tree =>
      match extract_each tree [] with
      | Raise e => (started, Raise e)
      | Ok navtree_data =>
          (started ++ [EvInfo "[*] Parsing completed"], Ok navtree_data)
      end
  end.

Definition future : Type := LeafItem * result ControlRecord.

(** [executor.submit(self.__fetch_control, control)] for each control. *)
Definition submit_all (navtree_parsed : list LeafItem) : list future :=
  map (fun control => (control, fetch_control control)) navtree_parsed.

(** The [for index_control, future in enumerate(as_completed(futures))]
    loop: [Some code] when the body called [exit(code)]. *)
Fixpoint drain (total_count : nat) (completed : list future)
  (index_control : nat) (st : run_state) : run_state * option Z :=
  match completed with
  | [] => (st, None)
  | (control, outcome_of_fetch) :: rest =>
      let control_id := item_id control in
      match outcome_of_fetch with
      | Ok record =>
          let st1 := store_control st control_id record in
          let st2 := emit st1 (EvProgress (index_control + 1) total_count) in
          drain total_count rest (S index_control) st2
      | Raise e =>
          (emit st (EvError control_id e), Some 1%Z)
      end
  end.

Definition OUTPUT_FILENAME : string := replace " " "_" BENCHMARK_TITLE.

Definition initial_data : BenchmarkData :=
  {| title := BENCHMARK_TITLE; controls := []; total := None |}.

(** [f"{self.__OUTPUT_FILENAME}.{self.__FORMAT}"] *)
Definition output_name : string :=
  (OUTPUT_FILENAME ++ "." ++ format_str FORMAT)%string.

(** [output_file], as [print] and [open] see it. *)
Definition output_file : string := path_str OUTPUT output_name.

(** The tail of [main], after the pool has been drained: [total] is set,
    the notice printed, and the file opened; when [open] raises, the
    exception leaves [main] and nothing is written. *)
Definition save (st : run_state) : run_state * outcome :=
  let st1 := store_total st (Dict.len (controls (data st))) in
  let st2 :=
    emit st1 (EvInfo ("[*] Done! Saving to " ++ dquote ++ output_file
                      ++ dquote)%string) in
  match open_w output_file with
  | Some e => (st2, Uncaught e)
  | None =>
      (emit st2 (EvWrite OUTPUT output_name
                   (match FORMAT with
                    | json => JsonDump (data st2)
                    | csv => CsvRows (csv_rows (data st2))
                    end)),
       Finished)
  end.

Definition main : run_state * outcome :=
  let (printed, parsed) := parse_navtree in
  let st0 := {| data := initial_data; trace := printed |} in
  match parsed with
  | Raise e => (st0, Uncaught e)
  | Ok navtree_parsed =>
      let futures := submit_all navtree_parsed in
      match drain (List.length navtree_parsed) (as_completed futures) 0 st0 with
      | (st, Some code) => (st, Exit code)
      | (st, None) => save st
      end
  end.

End Program.

(** The events of a trace that write a file. *)
Definition writes (tr : list event) : list event :=
  filter (fun ev => match ev with EvWrite _ _ _ => true | _ => false end) tr.

(** The progress indicators of a trace, as [(completed_count, total_count)]. *)
Fixpoint progress (tr : list event) : list (nat * nat) :=
  match tr with
  | [] => []
  | EvProgress i n :: rest => (i, n) :: progress rest
  | _ :: rest => progress rest
  end.

Definition errors (tr : list event) : list (value * exn) :=
  flat_map (fun ev => match ev with EvError i e => [(i, e)] | _ => [] end) tr.

Definition failed {A : Type} (r : result A) : bool :=
  match r with
  | Ok _ => false
  | Raise _ => true
  end.

(** *** Vocabulary for the aggregation loop *)

(** The number of completions that succeeded before the first failure. *)
Fixpoint ok_prefix_len (completed : list future) : nat :=
  match completed with
  | (_, Ok _) :: rest => S (ok_prefix_len rest)
  | _ => 0
  end.

(** The first completion that raised, with what it raised. *)
Fixpoint first_failure (completed : list future) : option (LeafItem * exn) :=
  match completed with
  | [] => None
  | (_, Ok _) :: rest => first_failure rest
  | (control, Raise e) :: _ => Some (control, e)
  end.

(** The entries the successful completions contribute, in completion order. *)
Definition collected (completed : list future) : list (value * ControlRecord) :=
  flat_map (fun f : future =>
              match snd f with
              | Ok record => [(item_id (fst f), record)]
              | Raise _ => []
              end) completed.

(** Every completion succeeded. *)
Definition all_ok (completed : list future) : Prop :=
  Forall (fun f : future => failed (snd f) = false) completed.

(** A record holding exactly the eleven fields, in the declared order. *)
Definition is_control_record (record : ControlRecord) : Prop :=
  map fst record = header.

(** *** Sample detail pages and sessions *)

Definition sample_page : soup :=
  [ mkElement "span" (Some "automated_scoring-recomendtation-data") " Automated ";
    mkElement "div" (Some "description-recomendtation-data") "  Ensure X is set. ";
    mkElement "div" (Some "rationale_statement-recomendtation-data") "Because.";
    mkElement "div" (Some "impact_statement-recomendtation-data") "   ";
    mkElement "div" (Some "audit_procedure-recomendtation-data") "Run the check";
    mkElement "div" (Some "remediation_procedure-recomendtation-data") "Set X";
    mkElement "div" (Some "default_value-recomendtation-data") "";
    mkElement "div" (Some "references-recomendtation-data") " https://example.org " ].

(** A session answering every request. *)
Definition session_up (url : string) : result string := Ok "<html>".


(** A session that only serves the page of recommendation A. *)
Definition session_only_A (url : string) : result string :=
  if String.eqb url (item_url sample_item) then Ok "<html>"
  else Raise (RequestException "connection refused").

Definition parse_sample (html : string) : soup := sample_page.

(** Completions arriving in submission order, and in the reverse order. *)
Definition in_order (fs : list future) : list future := fs.
Definition reversed (fs : list future) : list future := rev fs.

(** [str(Path(directory, name))] for a plain relative directory and a name
    without a slash. *)
Definition join_path (directory name : string) : string :=
  (directory ++ "/" ++ name)%string.

(** A file system on which [open] succeeds, and one on which it fails. *)
Definition open_ok (path : string) : option exn := None.

(** *** Sample runs *)

(** Group G over a session that only serves A, completions reversed. *)
Definition run_partial : run_state * outcome :=
  main session_only_A parse_sample (Ok [group_G]) reversed
       "CIS Demo Benchmark" json "output" join_path open_ok.

(** The same, completions in submission order. *)
Definition run_ordered : run_state * outcome :=
  main session_only_A parse_sample (Ok [group_G]) in_order
       "CIS Demo Benchmark" json "output" join_path open_ok.


(** Group G over a session that answers, completions reversed. *)
Definition run_full (fmt : format) : run_state * outcome :=
  main session_up parse_sample (Ok [group_G]) reversed
       "CIS Demo Benchmark" fmt "output" join_path open_ok.


(* ================================================================== *)
(** ** Further vocabulary *)

(** *** The flattener *)

(** Every node of the tree, children before their parent. *)
Fixpoint postorder (n : node) : list node :=
  match n with
  | Node _ _ _ _ subsections recommendations =>
      match subsections with
      | Some subs => flat_map postorder subs
      | None => []
      end
      ++ match recommendations with
         | Some recs => flat_map postorder recs
         | None => []
         end
      ++ [n]
  end.

Definition lacks_subsections (n : node) : bool :=
  negb (contains (n_subsections n)).

(** The first of the keys [id], [title], [view_level], [section_id] that
    the node does not have. *)
Definition first_missing (n : node) : option string :=
  match n_id n, n_title n, n_view_level n, n_section_id n with
  | None, _, _, _ => Some "id"
  | Some _, None, _, _ => Some "title"
  | Some _, Some _, None, _ => Some "view_level"
  | Some _, Some _, Some _, None => Some "section_id"
  | Some _, Some _, Some _, Some _ => None
  end.

(** The first missing key of the first node that misses one. *)
Fixpoint first_key_error (l : list node) : option string :=
  match l with
  | [] => None
  | m :: rest =>
      match first_missing m with
      | Some k => Some k
      | None => first_key_error rest
      end
  end.

(** A section as the service sends it: both child keys, no scalar key
    needed. *)
Definition section_S : node :=
  Node None None None None (Some []) (Some [leaf_A; leaf_A]).

(** *** The aggregation loop *)

(** The record of the last successful completion carrying the id. *)
Fixpoint last_for (control_id : value) (completed : list future)
  : option ControlRecord :=
  match completed with
  | [] => None
  | (control, r) :: rest =>
      match last_for control_id rest with
      | Some record => Some record
      | None =>
          match r with
          | Ok record =>
              if value_eqb (item_id control) control_id then Some record else None
          | Raise _ => None
          end
      end
  end.

Definition ids_of (completed : list future) : list value :=
  map (fun f : future => item_id (fst f)) completed.

(** The character occurs in the string. *)
Fixpoint occurs (c : ascii) (s : string) : bool :=
  match s with
  | EmptyString => false
  | String c' r => Ascii.eqb c' c || occurs c r
  end.

(* ================================================================== *)
(** ** Start-up: [__init__], [__create_path], [__get_title_and_version] *)

(** [s.split(sep)] for a one-character separator: never an empty list. *)
Fixpoint str_split (sep : ascii) (s : string) : list string :=
  match s with
  | EmptyString => [EmptyString]
  | String c r =>
      if Ascii.eqb c sep then EmptyString :: str_split sep r
      else
        match str_split sep r with
        | w :: ws => String c w :: ws
        | [] => [String c EmptyString]
        end
  end.

(** [sep.join(words)] *)
Fixpoint str_join (sep : string) (words : list string) : string :=
  match words with
  | [] => EmptyString
  | [w] => w
  | w :: rest => (w ++ sep ++ str_join sep rest)%string
  end.

(** Exceptions of the start-up code that [exn] does not list. *)
Inductive startup_exn : Type :=
| TypeError (msg : string)
| IndexError (msg : string)
| OSError (msg : string)
| ValueError (msg : string)
| Raised (e : exn).

Inductive startup_result (A : Type) : Type :=
| Done (a : A)
| Failed (e : startup_exn).
Arguments Done {A} a.
Arguments Failed {A} e.

(** [words.pop(-1)]: the last element and the list without it. *)
Definition pop_last (words : list string) : startup_result (string * list string) :=
  match words with
  | [] => Failed (IndexError "pop from empty list")
  | w :: rest => Done (last rest w, removelast words)
  end.

(** What [find(name)[attribute]] needs of a tag of the landing page. *)
Record tag : Type := mkTag {
  tag_label : string;
  tag_attrs : list (string * string)
}.

Definition find_tag (page : list tag) (name : string) : option tag :=
  List.find (fun t => String.eqb (tag_label t) name) page.

Definition headers := list (string * string).

(** What start-up does to the outside besides returning. *)
Inductive startup_event : Type :=
| SePrint (msg : string)
| SeMkdir (path : string)
| SeGet (sent : headers) (url : string).

(** The parsed command line. *)
Record Args : Type := mkArgs {
  arg_id : string;
  arg_output_path : option string;
  arg_format : format;
  arg_threads : Z;
  arg_credential_file : string
}.

(** The fields [__init__] leaves on the object. *)
Record Scraper : Type := mkScraper {
  s_headers : headers;
  s_benchmark_id : string;
  s_num_threads : Z;
  s_format : format;
  s_output : string;
  s_title : string;
  s_version : string;
  s_data : BenchmarkData;
  s_output_filename : string
}.

Inductive startup_outcome : Type :=
| Started (s : Scraper)
| StartExit (code : Z)
| StartFailed (e : startup_exn).

Definition BASE_URL : string := "https://workbench.cisecurity.org/benchmarks".
Definition BASE_URL_API : string :=
  "https://workbench.cisecurity.org/api/v1/benchmarks".
Definition USER_AGENT : string :=
  "Mozilla/5.0 (X11; Linux x86_64; rv:109.0) Gecko/20100101 Firefox/115.0".

(** How the whole program ends. *)
Inductive program_outcome : Type :=
| PFinished
| PExit (code : Z)
| PFailed (e : startup_exn).

Section Startup.

(** [Path.is_file], [Path.is_dir]. *)
Variable is_file : string -> bool.
Variable is_dir : string -> bool.
(** [json.loads(open(path).read())], when it yields an object. *)
Variable load_credentials : string -> startup_result (list (string * value)).
(** [Path.mkdir]: [None] when the directory was created. *)
Variable mkdir : string -> option startup_exn.
(** [requests.Session.get(url).text] under the session's headers. *)
Variable http_text : headers -> string -> result string.
(** [requests.Session.get(url).json()["navtree"]] *)
Variable http_navtree : headers -> string -> result (list node).
(** [BeautifulSoup(html, "html.parser")], as [find(name)[attribute]] and as
    [find(name, {"id": ...}).text] see it. *)
Variable parse_landing : string -> list tag.
Variable create_soup : string -> soup.
Variable as_completed : list future -> list future.
(** [str(Path(directory, name))] and [open(output_file, "w")], as in [main]. *)
Variable path_str : string -> string -> string.
Variable open_w : string -> option exn.

Definition create_path (path_to_create : string)
  : list startup_event * startup_result string :=
  if negb (is_dir path_to_create)
  then match mkdir path_to_create with
       | None => ([SeMkdir path_to_create], Done path_to_create)
       | Some e => ([SeMkdir path_to_create], Failed e)
       end
  else ([], Done path_to_create).

Definition get_title_and_version (sent : headers) (BENCHMARK_ID : string)
  : list startup_event * startup_result (string * string) :=
  let url := (BASE_URL ++ "/" ++ BENCHMARK_ID)%string in
  let begun :=
    [SePrint "[*] Scraping benchmark title and version"; SeGet sent url] in
  match http_text sent url with
  | Raise e => (begun, Failed (Raised e))
  | Ok html =>
      match find_tag (parse_landing html) "wb-benchmark-title" with
      | None => (begun, Failed (TypeError "'NoneType' object is not subscriptable"))
      | Some found =>
          match Dict.get String.eqb (tag_attrs found) "title" with
          | None => (begun, Failed (Raised (KeyError "title")))
          | Some attribute =>
              let _title := str_split " " attribute in
              match pop_last _title with
              | Failed e => (begun, Failed e)
              | Done (version, _title') =>
                  let title := str_join " " _title' in
                  (begun ++ [SePrint ("[*] Found: " ++ title ++ " - " ++ version)],
                   Done (title, version))
              end
          end
      end
  end.

(** [Scraper.__init__] *)
Definition init (args : Args) : list startup_event * startup_outcome :=
  if negb (is_file (arg_credential_file args))
  then ([SePrint "Unable to locate the credential file! Exiting..."], StartExit 1)
  else
    match load_credentials (arg_credential_file args) with
    | Failed e => ([], StartFailed e)
    | Done credential_data =>
        match Dict.get String.eqb credential_data "xsrf_token" with
        | None => ([], StartFailed (Raised (KeyError "xsrf_token")))
        | Some XSRF_TOKEN =>
            match Dict.get String.eqb credential_data "workbench_session" with
            | None => ([], StartFailed (Raised (KeyError "workbench_session")))
            | Some WORKBENCH_SESSION =>
                let sent : headers :=
                  [ ("Cookie",
                     ("XSRF-TOKEN=" ++ py_str XSRF_TOKEN
                      ++ "; workbench_session=" ++ py_str WORKBENCH_SESSION)%string);
                    ("User-Agent", USER_AGENT) ] in
                let wanted :=
                  match arg_output_path args with
                  | Some path => if negb (truthy path) then "output" else path
                  | None => "output"
                  end in
                match create_path wanted with
                | (made, Failed e) => (made, StartFailed e)
                | (made, Done OUTPUT) =>
                    match get_title_and_version sent (arg_id args) with
                    | (asked, Failed e) => (made ++ asked, StartFailed e)
                    | (asked, Done (BENCHMARK_TITLE, BENCHMARK_VERSION)) =>
                        (made ++ asked,
                         Started
                           {| s_headers := sent;
                              s_benchmark_id := arg_id args;
                              s_num_threads := arg_threads args;
                              s_format := arg_format args;
                              s_output := OUTPUT;
                              s_title := BENCHMARK_TITLE;
                              s_version := BENCHMARK_VERSION;
                              s_data := {| title := BENCHMARK_TITLE;
                                           controls := [];
                                           total := None |};
                              s_output_filename :=
                                replace " " "_" BENCHMARK_TITLE |})
                    end
                end
            end
        end
    end.

(** [Scraper.main] on the object: [ThreadPoolExecutor] refuses a pool of
    no workers, after the tree has been parsed. *)
Definition scraper_main (s : Scraper) : run_state * program_outcome :=
  let navtree :=
    http_navtree (s_headers s)
      (BASE_URL_API ++ "/" ++ s_benchmark_id s ++ "/navtree")%string in
  if (0 <? s_num_threads s)%Z
  then
    let (st, o) :=
      main (http_text (s_headers s)) create_soup navtree as_completed
           (s_title s) (s_format s) (s_output s) path_str open_w in
    (st, match o with
         | Finished => PFinished
         | Exit code => PExit code
         | Uncaught e => PFailed (Raised e)
         end)
  else
    let (printed, parsed) := parse_navtree navtree in
    let st0 := {| data := s_data s; trace := printed |} in
    match parsed with
    | Raise e => (st0, PFailed (Raised e))
    | Ok _ => (st0, PFailed (ValueError "max_workers must be greater than 0"))
    end.

(** [Scraper(args).main()] *)
Definition program (args : Args)
  : list startup_event * option run_state * program_outcome :=
  match init args with
  | (tr, StartExit code) => (tr, None, PExit code)
  | (tr, StartFailed e) => (tr, None, PFailed e)
  | (tr, Started s) =>
      let (st, o) := scraper_main s in (tr, Some st, o)
  end.

End Startup.

(** The start-up events that reach outside the process. *)
Definition reaches_out (ev : startup_event) : bool :=
  match ev with
  | SePrint _ => false
  | SeMkdir _ => true
  | SeGet _ _ => true
  end.

(** The directory [__init__] settles on. *)
Definition wanted_output (args : Args) : string :=
  match arg_output_path args with
  | Some path => if truthy path then path else "output"
  | None => "output"
  end.

(** The [Cookie] header built from the two tokens. *)
Definition cookie (xsrf_token workbench_session : value) : string :=
  ("XSRF-TOKEN=" ++ py_str xsrf_token
   ++ "; workbench_session=" ++ py_str workbench_session)%string.

(** Two recommendations under one id. *)
Definition leaf_A2 : node :=
  Node (Some (VStr "A")) (Some (VStr "Ensure Y")) (Some (VStr "1.2"))
       (Some (VInt 7)) None None.

Definition twins : node :=
  Node None None None None (Some []) (Some [leaf_A; leaf_A2]).

Definition run_twins (schedule : list future -> list future)
  : run_state * outcome :=
  main session_up parse_sample (Ok [twins]) schedule
       "CIS Demo Benchmark" json "output" join_path open_ok.

(** *** A sample installation *)

Definition sample_args : Args :=
  {| arg_id := "1234"; arg_output_path := None; arg_format := csv;
     arg_threads := 10; arg_credential_file := "creds.json" |}.

Definition sample_is_file (path : string) : bool := String.eqb path "creds.json".
Definition sample_is_dir (path : string) : bool := false.
Definition sample_credentials (path : string)
  : startup_result (list (string * value)) :=
  Done [("xsrf_token", VStr "x"); ("workbench_session", VStr "w")].
Definition sample_mkdir (path : string) : option startup_exn := None.
Definition sample_http_text (sent : headers) (url : string) : result string :=
  Ok "<html>".
Definition sample_http_navtree (sent : headers) (url : string)
  : result (list node) := Ok [group_G].
Definition sample_landing (html : string) : list tag :=
  [ mkTag "title" [];
    mkTag "wb-benchmark-title" [("title", "CIS Demo Benchmark v1.0.0")] ].

Definition sample_scraper (threads : Z) : Scraper :=
  {| s_headers := [("Cookie", cookie (VStr "x") (VStr "w")); ("User-Agent", USER_AGENT)];
     s_benchmark_id := "1234";
     s_num_threads := threads;
     s_format := csv;
     s_output := "output";
     s_title := "CIS Demo Benchmark";
     s_version := "v1.0.0";
     s_data := {| title := "CIS Demo Benchmark"; controls := []; total := None |};
     s_output_filename := "CIS_Demo_Benchmark" |}.

(** The run of the sample installation's scraper. *)
Definition run_sample_program : run_state * program_outcome :=
  scraper_main sample_http_text sample_http_navtree parse_sample reversed
               join_path open_ok (sample_scraper 10).

(* ================================================================== *)
(** ** The text of the tabular file *)

Definition LF : ascii := ascii_of_nat 10.
Definition CR : ascii := ascii_of_nat 13.
Definition DQ : ascii := ascii_of_nat 34.

(** The characters that make [csv.writer] quote a field in its default
    dialect: the delimiter, the quote character and those of the line
    terminator. *)
Definition special (c : ascii) : bool :=
  Ascii.eqb c "," || Ascii.eqb c DQ || Ascii.eqb c CR || Ascii.eqb c LF.

Fixpoint needs_quotes (s : string) : bool :=
  match s with
  | EmptyString => false
  | String c r => special c || needs_quotes r
  end.

(** Each double quote written twice. *)
Fixpoint double_quotes (s : string) : string :=
  match s with
  | EmptyString => EmptyString
  | String c r =>
      if Ascii.eqb c DQ then String DQ (String DQ (double_quotes r))
      else String c (double_quotes r)
  end.

Definition csv_field (s : string) : string :=
  if needs_quotes s
  then String DQ (double_quotes s ++ String DQ EmptyString)
  else s.

(** One row: the fields separated by commas (a lone empty field is written
    as two double quotes), ended by carriage return and line feed. *)
Definition csv_fields_text (fields : list string) : string :=
  (match fields with
   | [EmptyString] => String DQ (String DQ EmptyString)
   | _ => str_join "," (map csv_field fields)
   end ++ String CR (String LF EmptyString))%string.

(** What [csv_writer.writerow(row)] writes: each value through [str]. *)
Definition csv_row_text (row : list value) : string :=
  csv_fields_text (map py_str row).

Fixpoint csv_text (rows : list (list value)) : string :=
  match rows with
  | [] => EmptyString
  | row :: rest => (csv_row_text row ++ csv_text rest)%string
  end.

(** The number of line feeds of a text: the lines it is made of. *)
Fixpoint line_feeds (s : string) : nat :=
  match s with
  | EmptyString => 0
  | String c r => (if Ascii.eqb c LF then 1 else 0) + line_feeds r
  end.

(** The line feeds inside the values of the rows. *)
Definition embedded_line_feeds (rows : list (list value)) : nat :=
  list_sum (map (fun row => list_sum (map (fun v => line_feeds (py_str v)) row))
                rows).

(** A detail page whose description runs over two lines. *)
Definition two_line_page : soup :=
  [ mkElement "span" (Some "automated_scoring-recomendtation-data") " Automated ";
    mkElement "div" (Some "description-recomendtation-data")
      ("Ensure X" ++ String LF "is set.")%string;
    mkElement "div" (Some "rationale_statement-recomendtation-data") "Because.";
    mkElement "div" (Some "impact_statement-recomendtation-data") "   ";
    mkElement "div" (Some "audit_procedure-recomendtation-data") "Run the check";
    mkElement "div" (Some "remediation_procedure-recomendtation-data") "Set X";
    mkElement "div" (Some "default_value-recomendtation-data") "";
    mkElement "div" (Some "references-recomendtation-data") " https://example.org " ].

Definition parse_two_line (html : string) : soup := two_line_page.

(** Group G with such pages, saved in the tabular format. *)
Definition run_two_line : run_state * outcome :=
  main session_up parse_two_line (Ok [group_G]) reversed
       "CIS Demo Benchmark" csv "output" join_path open_ok.

(* ================================================================== *)
(** * Properties *)

(** ** Trimming *)

Section StripFacts.

Lemma parse_text_strip s : parse_text s = strip s.
Proof. unfold parse_text. destruct (strip s); reflexivity. Qed.

Lemma lstrip_fixed s : head_space s = false -> lstrip s = s.
Proof. destruct s as [|c r]; simpl; [reflexivity|]. now intros ->. Qed.

Lemma rstrip_fixed s : last_space s = false -> rstrip s = s.
Proof.
  induction s as [|c r IH]; [reflexivity|].
  simpl. destruct r as [|c' r'].
  - simpl. now intros ->.
  - intros H. rewrite (IH H). reflexivity.
Qed.

Lemma head_space_lstrip s : head_space (lstrip s) = false.
Proof.
  induction s as [|c r IH]; [reflexivity|].
  simpl. destruct (isspace c) eqn:E; [exact IH|]. simpl. exact E.
Qed.

Lemma last_space_rstrip s : last_space (rstrip s) = false.
Proof.
  induction s as [|c r IH]; [reflexivity|].
  simpl. destruct (rstrip r) as [|c' r'] eqn:E.
  - destruct (isspace c) eqn:Ec; simpl; [reflexivity|exact Ec].
  - exact IH.
Qed.

Lemma head_space_rstrip s : head_space s = false -> head_space (rstrip s) = false.
Proof.
  destruct s as [|c r]; [reflexivity|].
  simpl. intros H. destruct (rstrip r); rewrite ?H; simpl; exact H.
Qed.

Lemma strip_is_trimmed s : is_trimmed (strip s) = true.
Proof.
  unfold is_trimmed, strip.
  rewrite last_space_rstrip, head_space_rstrip by apply head_space_lstrip.
  reflexivity.
Qed.

Lemma strip_fixed s : is_trimmed s = true -> strip s = s.
Proof.
  unfold is_trimmed, strip. intros H.
  apply andb_true_iff in H as [H1 H2].
  apply negb_true_iff in H1, H2.
  rewrite (lstrip_fixed _ H1). now apply rstrip_fixed.
Qed.

Lemma lstrip_whitespace s : whitespace_only s = true -> lstrip s = "".
Proof.
  induction s as [|c r IH]; [reflexivity|].
  simpl. intros H. apply andb_true_iff in H as [-> H]. auto.
Qed.

Lemma strip_whitespace s : whitespace_only s = true -> strip s = "".
Proof. unfold strip. intros H. now rewrite lstrip_whitespace. Qed.

Lemma lstrip_split s :
  exists l, whitespace_only l = true /\ s = (l ++ lstrip s)%string.
Proof.
  induction s as [|c r (l & Hl & E)].
  - exists "". split; reflexivity.
  - simpl. destruct (isspace c) eqn:Ec.
    + exists (String c l). simpl. rewrite Ec, Hl. split; [reflexivity|].
      now rewrite <- E.
    + exists "". split; reflexivity.
Qed.

Lemma rstrip_split s :
  exists r, whitespace_only r = true /\ s = (rstrip s ++ r)%string.
Proof.
  induction s as [|c s (r & Hr & E)].
  - exists "". split; reflexivity.
  - simpl. destruct (rstrip s) as [|c' s'] eqn:Es.
    + destruct (isspace c) eqn:Ec.
      * exists (String c r). simpl. rewrite Ec, Hr. split; [reflexivity|].
        now rewrite E at 1.
      * exists r. split; [exact Hr|]. simpl. now rewrite E at 1.
    + exists r. split; [exact Hr|]. simpl. simpl in E. now rewrite <- E.
Qed.

(** The empty result means there was nothing but whitespace. *)
Lemma strip_empty_whitespace s : strip s = "" -> whitespace_only s = true.
Proof.
  unfold strip.
  induction s as [|c r IH]; [reflexivity|].
  simpl. destruct (isspace c) eqn:Ec; [exact IH|].
  simpl. destruct (rstrip r); rewrite ?Ec; discriminate.
Qed.

End StripFacts.

(** C8 - [__parse_text] is idempotent: an already trimmed string is returned
    unchanged, a whitespace-only string becomes the empty string, and a
    second application changes nothing. *)
Theorem parse_text_idempotent (s : string) :
  (is_trimmed s = true -> parse_text s = s)
  /\ (whitespace_only s = true -> parse_text s = "")
  /\ parse_text (parse_text s) = parse_text s.
Proof.
  rewrite !parse_text_strip. repeat split.
  - apply strip_fixed.
  - apply strip_whitespace.
  - apply strip_fixed, strip_is_trimmed.
Qed.

Lemma parse_text_idempotent_witness :
  parse_text "Ensure X" = "Ensure X"
  /\ parse_text (String (ascii_of_nat 9) "  ") = ""
  /\ parse_text (parse_text "  a b  ") = parse_text "  a b  ".
Proof.
  split; [|split].
  - apply (proj1 (parse_text_idempotent "Ensure X")). reflexivity.
  - apply (proj1 (proj2 (parse_text_idempotent (String (ascii_of_nat 9) "  ")))).
    reflexivity.
  - apply (proj2 (proj2 (parse_text_idempotent "  a b  "))).
Defined.

(** ** The text extractor *)

(** C5, as stated, fails: on a page that lacks the element the extraction
    raises; it does not return the empty string. *)
Lemma extract_absent_raises :
  find [] "div" "description-recomendtation-data" = None
  /\ extract [] "div" "description-recomendtation-data" <> Ok ""
  /\ extract [] "div" "description-recomendtation-data" = Raise NoneType_has_no_text.
Proof. repeat split. discriminate. Qed.

(** C5, amended - when the element is present the extractor returns its
    text without the leading and trailing whitespace (the empty string when
    the text is whitespace-only); when the element is absent it raises
    [AttributeError]. *)
Theorem extract_trims_or_raises (page : soup) (name ident : string) :
  match find page name ident with
  | Some el =>
      exists l t r,
        extract page name ident = Ok t
        /\ text el = (l ++ t ++ r)%string
        /\ whitespace_only l = true /\ whitespace_only r = true
        /\ is_trimmed t = true
        /\ (t = "" <-> whitespace_only (text el) = true)
  | None => extract page name ident = Raise NoneType_has_no_text
  end.
Proof.
  unfold extract. destruct (find page name ident) as [el|]; [|reflexivity].
  destruct (lstrip_split (text el)) as (l & Hl & El).
  destruct (rstrip_split (lstrip (text el))) as (r & Hr & Er).
  exists l, (strip (text el)), r. rewrite parse_text_strip.
  repeat split; try assumption.
  - unfold strip. now rewrite <- Er.
  - apply strip_is_trimmed.
  - apply strip_empty_whitespace.
  - apply strip_whitespace.
Qed.

Example strip_inner_space : strip "  1.1  Ensure X  " = "1.1  Ensure X".
Proof. reflexivity. Qed.

(** ** The flattener *)

Lemma extract_subsections_eq (n : node) (acc : list LeafItem) :
  extract_subsections n acc =
    (l1 <- match n_subsections n with
           | Some subs => extract_each subs acc
           | None => Ok acc
           end ;;
     l2 <- match n_recommendations n with
           | Some recs => extract_each recs l1
           | None => Ok l1
           end ;;
     if append_guard n
     then item <- leaf_item n ;; Ok (l2 ++ [item])
     else Ok l2).
Proof. destruct n; reflexivity. Qed.

Lemma extract_each_app (l1 l2 : list node) (acc : list LeafItem) :
  extract_each (l1 ++ l2) acc = (mid <- extract_each l1 acc ;; extract_each l2 mid).
Proof.
  revert acc. induction l1 as [|x l1 IH]; intros acc; simpl; [reflexivity|].
  destruct (extract_subsections x acc); simpl; auto.
Qed.

Lemma append_guard_eq (n : node) :
  append_guard n = negb (contains (n_subsections n)).
Proof. reflexivity. Qed.

Lemma map_result_app {A B : Type} (f : A -> result B) (l1 l2 : list A) :
  map_result f (l1 ++ l2) =
    (x <- map_result f l1 ;; y <- map_result f l2 ;; Ok (x ++ y)).
Proof.
  induction l1 as [|a l1 IH]; simpl.
  - destruct (map_result f l2); reflexivity.
  - destruct (f a); simpl; [|reflexivity]. rewrite IH.
    destruct (map_result f l1); simpl; [|reflexivity].
    destruct (map_result f l2); reflexivity.
Qed.

Lemma map_result_Forall2 {A B : Type} (f : A -> result B) (l : list A) (ys : list B) :
  map_result f l = Ok ys -> Forall2 (fun x y => f x = Ok y) l ys.
Proof.
  revert ys. induction l as [|a l IH]; simpl; intros ys H.
  - injection H as <-. constructor.
  - destruct (f a) eqn:Ea; simpl in H; [|discriminate].
    destruct (map_result f l) eqn:El; simpl in H; [|discriminate].
    injection H as <-. constructor; auto.
Qed.

Lemma map_result_total {A B : Type} (f : A -> result B) (l : list A) :
  (forall x, In x l -> exists y, f x = Ok y) -> exists ys, map_result f l = Ok ys.
Proof.
  induction l as [|a l IH]; simpl; intros H.
  - now exists [].
  - destruct (H a) as [y Ey]; [now left|].
    destruct IH as [ys Eys]; [intros x Hx; apply H; now right|].
    exists (y :: ys). now rewrite Ey, Eys.
Qed.

Lemma extract_each_emitted (l : list node) :
  Forall appends_emitted l ->
  forall acc,
    extract_each l acc =
      (items <- map_result leaf_item (flat_map emitted l) ;; Ok (acc ++ items)).
Proof.
  induction 1 as [|x l Hx _ IH]; intros acc; simpl.
  - now rewrite app_nil_r.
  - rewrite Hx, map_result_app.
    destruct (map_result leaf_item (emitted x)) as [xs|e]; simpl; [|reflexivity].
    rewrite IH.
    destruct (map_result leaf_item (flat_map emitted l)); simpl; [|reflexivity].
    now rewrite app_assoc.
Qed.

Lemma extract_subsections_emitted (n : node) : appends_emitted n.
Proof.
  induction n as [id title view_level section_id subs recs IHs IHr] using node_ind.
  intros acc. rewrite extract_subsections_eq, append_guard_eq.
  cbn [n_subsections n_recommendations emitted].
  rewrite !map_result_app.
  assert (Es : forall a,
    match subs with Some l => extract_each l a | None => Ok a end =
    (items <- map_result leaf_item
                (match subs with Some l => flat_map emitted l | None => [] end) ;;
     Ok (a ++ items))).
  { intros a. destruct subs as [l|]; simpl.
    - apply extract_each_emitted, IHs.
    - now rewrite app_nil_r. }
  assert (Er : forall a,
    match recs with Some l => extract_each l a | None => Ok a end =
    (items <- map_result leaf_item
                (match recs with Some l => flat_map emitted l | None => [] end) ;;
     Ok (a ++ items))).
  { intros a. destruct recs as [l|]; simpl.
    - apply extract_each_emitted, IHr.
    - now rewrite app_nil_r. }
  rewrite Es.
  destruct (map_result leaf_item _) as [xs|e]; simpl; [|reflexivity].
  rewrite Er.
  destruct (map_result leaf_item _) as [ys|e]; simpl; [|reflexivity].
  destruct subs as [l|]; simpl.
  - now rewrite app_nil_r, app_assoc.
  - destruct (leaf_item _) as [item|e]; simpl; [|reflexivity].
    now rewrite !app_assoc.
Qed.

Lemma nodes_self (n : node) : In n (nodes n).
Proof. destruct n; simpl; now left. Qed.

Lemma nodes_child (n c : node) : In c (children n) -> incl (nodes c) (nodes n).
Proof.
  destruct n as [i t v s subs recs]. unfold children. simpl.
  intros Hc m Hm. right. apply in_app_iff.
  apply in_app_iff in Hc as [Hc|Hc]; [left|right].
  - destruct subs as [l|]; [|contradiction]. apply in_flat_map. eauto.
  - destruct recs as [l|]; [|contradiction]. apply in_flat_map. eauto.
Qed.

Lemma flat_map_ext_Forall {A B : Type} (f g : A -> list B) (l : list A) :
  Forall (fun x => f x = g x) l -> flat_map f l = flat_map g l.
Proof. induction 1 as [|x l E _ IH]; simpl; [reflexivity|]. now rewrite E, IH. Qed.

(** Depth-first leaves are the leaves of the pre-order listing. *)
Lemma dfs_leaves_filter (n : node) : dfs_leaves n = filter is_leaf (nodes n).
Proof.
  induction n as [i t v s subs recs IHs IHr] using node_ind.
  assert (Hflat : forall l, Forall (fun x => dfs_leaves x = filter is_leaf (nodes x)) l ->
            flat_map dfs_leaves l = filter is_leaf (flat_map nodes l)).
  { induction 1 as [|x l E _ IH]; simpl; [reflexivity|].
    now rewrite filter_app, E, IH. }
  destruct subs as [ls|], recs as [lr|]; cbn -[is_leaf];
    unfold is_leaf at 1, is_internal; cbn -[is_leaf];
    rewrite ?filter_app, ?app_nil_r; cbn -[is_leaf];
    rewrite <- ?Hflat by eauto; reflexivity.
Qed.

Lemma dfs_leaves_are_leaves (n m : node) : In m (dfs_leaves n) -> is_leaf m = true.
Proof. rewrite dfs_leaves_filter. intros H. now apply filter_In in H. Qed.

(** On trees whose recommendation lists always sit next to a subsections
    key, the emitted nodes are the depth-first leaves. *)
Lemma emitted_dfs_leaves (n : node) : sections_keyed n -> emitted n = dfs_leaves n.
Proof.
  induction n as [i t v s subs recs IHs IHr] using node_ind. intros Hk.
  assert (Hsub : forall c, In c (children (Node i t v s subs recs)) -> sections_keyed c).
  { intros c Hin m Hm. apply Hk. eapply nodes_child; eauto. }
  pose proof (Hk _ (nodes_self _)) as Hself. cbn in Hself.
  unfold children in Hsub. cbn in Hsub.
  destruct subs as [ls|].
  - cbn. rewrite app_nil_r. f_equal.
    + apply flat_map_ext_Forall.
      simpl in IHs. rewrite Forall_forall in *.
      intros c Hin. apply IHs; [exact Hin|]. apply Hsub, in_app_iff. now left.
    + destruct recs as [lr|]; [|reflexivity].
      apply flat_map_ext_Forall.
      simpl in IHr. rewrite Forall_forall in *.
      intros c Hin. apply IHr; [exact Hin|]. apply Hsub, in_app_iff. now right.
  - destruct recs as [lr|]; [|reflexivity].
    specialize (Hself eq_refl). discriminate.
Qed.

Lemma leaf_item_total (n : node) : has_fields n = true -> exists item, leaf_item n = Ok item.
Proof.
  destruct n as [[i|] [t|] [v|] [s|] subs recs]; cbn; try discriminate.
  intros _. eexists. reflexivity.
Qed.

(** X6 - the flattener is correct on the trees every section of which carries
    both child keys: it returns, and what it appends are the descriptors of
    the leaves in depth-first order. *)
Theorem flatten_leaves_when_sections_keyed (n : node) (acc : list LeafItem) :
  well_formed n -> sections_keyed n ->
  exists items,
    extract_subsections n acc = Ok (acc ++ items)
    /\ Forall2 (fun m item => leaf_item m = Ok item) (filter is_leaf (nodes n)) items.
Proof.
  intros Hwf Hk.
  rewrite extract_subsections_emitted, (emitted_dfs_leaves _ Hk), dfs_leaves_filter.
  destruct (map_result_total leaf_item (filter is_leaf (nodes n))) as [items E].
  - intros m Hm. apply filter_In in Hm as [Hin Hl].
    apply leaf_item_total. now apply Hwf.
  - exists items. rewrite E. split; [reflexivity|].
    now apply map_result_Forall2.
Qed.

(** C1 - the claim asks that no node holding recommendations be emitted;
    the code emits one.  On a recommendation group without a subsections key
    (a well-formed tree whose only leaf is [leaf_A]) the flattener returns
    the descriptor of the leaf followed by the descriptor of the group
    itself. *)
Theorem flatten_emits_recommendation_group :
  well_formed group_G
  /\ is_internal group_G = true
  /\ filter is_leaf (nodes group_G) = [leaf_A]
  /\ leaf_item leaf_A = Ok sample_item
  /\ leaf_item group_G = Ok group_item
  /\ extract_subsections group_G [] = Ok [sample_item; group_item].
Proof.
  split; [|repeat split].
  intros m Hm Hl. cbn in Hm.
  destruct Hm as [<-|[<-|[]]]; [discriminate|reflexivity].
Qed.

(** C9 - every descriptor the flattener appends carries the key
    [view_level], one space, [title] of the node it was built from; for
    [view_level = "1.1"] and [title = "Ensure X"] the key is
    ["1.1 Ensure X"]. *)
Theorem key_is_view_level_space_title :
  (forall n acc out,
     extract_subsections n acc = Ok out ->
     exists items,
       out = acc ++ items
       /\ Forall2 (fun m item =>
                     exists v t,
                       n_view_level m = Some v /\ n_title m = Some t
                       /\ item_key item = (py_str v ++ " " ++ py_str t)%string)
                  (emitted n) items)
  /\ (forall id section_id acc,
        exists item,
          extract_subsections
            (Node (Some id) (Some (VStr "Ensure X")) (Some (VStr "1.1"))
                  (Some section_id) None None) acc = Ok (acc ++ [item])
          /\ item_key item = "1.1 Ensure X").
Proof.
  split.
  - intros n acc out H. rewrite extract_subsections_emitted in H.
    destruct (map_result leaf_item (emitted n)) as [items|e] eqn:E;
      simpl in H; [|discriminate].
    injection H as <-. exists items. split; [reflexivity|].
    apply map_result_Forall2 in E.
    eapply Forall2_impl; [|exact E].
    intros [i t v s subs recs] item. cbn.
    destruct i, t, v, s; cbn; try discriminate.
    intros [= <-]. eauto.
  - intros id section_id acc. eexists. split; reflexivity.
Qed.

Lemma key_is_view_level_space_title_witness :
  exists items,
    [sample_item] = [] ++ items
    /\ Forall2 (fun m item =>
                  exists v t,
                    n_view_level m = Some v /\ n_title m = Some t
                    /\ item_key item = (py_str v ++ " " ++ py_str t)%string)
               (emitted leaf_A) items.
Proof.
  apply (proj1 key_is_view_level_space_title leaf_A [] [sample_item]).
  reflexivity.
Defined.

(** C10 - the guard of line 70 only tests the subsections key: a node is
    appended exactly when that key is missing, after everything its
    children appended; so a node with recommendations but no subsections key
    is descended into and then appended itself. *)
Theorem appended_iff_no_subsections_key (n : node) (acc : list LeafItem) :
  append_guard n = negb (contains (n_subsections n))
  /\ extract_subsections n acc =
       (mid <- extract_each (children n) acc ;;
        match n_subsections n with
        | None => item <- leaf_item n ;; Ok (mid ++ [item])
        | Some _ => Ok mid
        end)
  /\ (forall recs mid item,
        n_subsections n = None -> n_recommendations n = Some recs ->
        extract_each recs acc = Ok mid -> leaf_item n = Ok item ->
        extract_subsections n acc = Ok (mid ++ [item])).
Proof.
  assert (E : extract_subsections n acc =
       (mid <- extract_each (children n) acc ;;
        match n_subsections n with
        | None => item <- leaf_item n ;; Ok (mid ++ [item])
        | Some _ => Ok mid
        end)).
  { rewrite extract_subsections_eq, append_guard_eq. unfold children.
    rewrite extract_each_app.
    destruct (n_subsections n) as [subs|]; simpl.
    - destruct (extract_each subs acc); simpl; [|reflexivity].
      destruct (n_recommendations n); reflexivity.
    - destruct (n_recommendations n); reflexivity. }
  split; [reflexivity|split; [exact E|]].
  intros recs mid item Hs Hr Hmid Hitem.
  rewrite E. unfold children. rewrite Hs, Hr. simpl.
  now rewrite Hmid; simpl; rewrite Hitem.
Qed.

Lemma appended_iff_no_subsections_key_witness :
  extract_subsections group_G [] = Ok ([sample_item] ++ [group_item]).
Proof.
  apply (proj2 (proj2 (appended_iff_no_subsections_key group_G []))
           [leaf_A] [sample_item] group_item); reflexivity.
Defined.

(** ** The detail fetcher *)

Lemma value_eqb_eq (a b : value) : value_eqb a b = true <-> a = b.
Proof.
  destruct a, b; simpl; split; intros H; try discriminate.
  - apply String.eqb_eq in H. now subst.
  - injection H as ->. apply String.eqb_refl.
  - apply Z.eqb_eq in H. now subst.
  - injection H as ->. apply Z.eqb_refl.
Qed.

Lemma record_literal_eq (v1 v2 v3 v4 v5 v6 v7 v8 v9 v10 v11 : value) :
  record_literal
    [ ("id", v1); ("key", v2); ("title", v3); ("assessment_status", v4);
      ("description", v5); ("rationale", v6); ("impact", v7); ("audit", v8);
      ("remediation", v9); ("default_value", v10); ("references", v11) ]
  = [ ("id", v1); ("key", v2); ("title", v3); ("assessment_status", v4);
      ("description", v5); ("rationale", v6); ("impact", v7); ("audit", v8);
      ("remediation", v9); ("default_value", v10); ("references", v11) ].
Proof. reflexivity. Qed.

Section FetchFacts.
Variable session_get : string -> result string.
Variable create_soup : string -> soup.

Ltac next_find page :=
  match goal with
  | |- context [find page ?name ?ident] =>
      let E := fresh "E" in
      destruct (find page name ident) eqn:E; cbn [bind]
  end.

(** What a returned record holds. *)
Lemma fetch_control_ok (control : LeafItem) (record : ControlRecord) :
  fetch_control session_get create_soup control = Ok record ->
  exists html,
    session_get (item_url control) = Ok html
    /\ is_control_record record
    /\ record_get record "id" = Some (item_id control)
    /\ record_get record "key" = Some (VStr (item_key control))
    /\ record_get record "title" = Some (item_title control)
    /\ forall name tag ident,
         In (name, (tag, ident)) locators ->
         exists el,
           find (create_soup html) tag ident = Some el
           /\ record_get record name = Some (VStr (parse_text (text el))).
Proof.
  unfold fetch_control.
  destruct (session_get (item_url control)) as [html|e]; cbn [bind];
    [|discriminate].
  unfold extract.
  repeat (next_find (create_soup html); [|discriminate]).
  rewrite record_literal_eq. intros [= <-].
  exists html. repeat split.
  intros name tag ident Hin. cbn in Hin.
  repeat (destruct Hin as [[= <- <- <-]|Hin];
          [eexists; split; [eassumption|reflexivity]|]).
  contradiction.
Qed.




End FetchFacts.


(** ** The aggregation loop *)

(** What the loop prints and how it ends, for any completion sequence. *)
Lemma drain_trace (total_count : nat) (completed : list future) (i : nat) (st : run_state) :
  trace (fst (drain total_count completed i st)) =
    trace st
    ++ map (fun k => EvProgress k total_count) (seq (i + 1) (ok_prefix_len completed))
    ++ match first_failure completed with
       | Some (control, e) => [EvError (item_id control) e]
       | None => []
       end
  /\ snd (drain total_count completed i st) =
       match first_failure completed with
       | Some _ => Some 1%Z
       | None => None
       end.
Proof.
  revert i st. induction completed as [|[c [r|e]] l IH]; intros i st; simpl.
  - now rewrite app_nil_r.
  - destruct (IH (S i) (emit (store_control st (item_id c) r)
                             (EvProgress (i + 1) total_count))) as [Ht Hs].
    rewrite Ht, Hs. split; [|reflexivity].
    simpl. rewrite <- app_assoc. simpl.
    now replace (S i + 1) with (S (i + 1)) by lia.
  - split; reflexivity.
Qed.

(** The loop leaves [title] and [total] alone. *)
Lemma drain_total (total_count : nat) (completed : list future) (i : nat) (st : run_state) :
  total (data (fst (drain total_count completed i st))) = total (data st)
  /\ title (data (fst (drain total_count completed i st))) = title (data st).
Proof.
  revert i st. induction completed as [|[c [r|e]] l IH]; intros i st; simpl.
  - split; reflexivity.
  - destruct (IH (S i) (emit (store_control st (item_id c) r)
                             (EvProgress (i + 1) total_count))) as [H1 H2].
    now rewrite H1, H2.
  - split; reflexivity.
Qed.

Lemma set_fresh {V : Type} (d : list (value * V)) (k : value) (v : V) :
  ~ In k (Dict.keys d) -> Dict.set value_eqb d k v = d ++ [(k, v)].
Proof.
  induction d as [|[k' v'] d IH]; simpl; intros H; [reflexivity|].
  destruct (value_eqb k' k) eqn:E.
  - apply value_eqb_eq in E. tauto.
  - rewrite IH; tauto.
Qed.

Lemma get_unique {V : Type} (d : list (value * V)) (k : value) (v : V) :
  NoDup (Dict.keys d) -> In (k, v) d -> Dict.get value_eqb d k = Some v.
Proof.
  induction d as [|[k' v'] d IH]; simpl; intros Hnd Hin; [contradiction|].
  inversion Hnd as [|? ? Hnot Hnd']; subst.
  destruct Hin as [[= -> ->]|Hin].
  - now rewrite (proj2 (value_eqb_eq k k) eq_refl).
  - destruct (value_eqb k' k) eqn:E.
    + apply value_eqb_eq in E. subst k'.
      exfalso. apply Hnot. unfold Dict.keys. apply in_map_iff.
      now exists (k, v).
    + now apply IH.
Qed.

Lemma keys_collected (completed : list future) :
  all_ok completed ->
  Dict.keys (collected completed) = map (fun f : future => item_id (fst f)) completed.
Proof.
  induction 1 as [|[c [r|e]] l H _ IH]; simpl; [reflexivity| |discriminate].
  unfold Dict.keys, collected in *. simpl. now rewrite IH.
Qed.

Lemma first_failure_all_ok (completed : list future) :
  all_ok completed ->
  first_failure completed = None /\ ok_prefix_len completed = List.length completed.
Proof.
  induction 1 as [|[c [r|e]] l H _ [IH1 IH2]]; simpl; auto; discriminate.
Qed.

Lemma first_failure_some (completed : list future) (f : future) :
  In f completed -> failed (snd f) = true ->
  exists control e,
    first_failure completed = Some (control, e)
    /\ In (control, Raise e) completed.
Proof.
  induction completed as [|[c [r|e]] l IH]; simpl; intros Hin Hf.
  - contradiction.
  - destruct Hin as [<-|Hin]; [discriminate|].
    destruct (IH Hin Hf) as (control & e & E & Hin'). eauto.
  - eauto.
Qed.

(** With every completion successful and the ids new and pairwise distinct,
    the loop appends one entry per completion, in completion order. *)
Lemma drain_controls (total_count : nat) (completed : list future) (i : nat) (st : run_state) :
  all_ok completed ->
  NoDup (Dict.keys (controls (data st))
         ++ map (fun f : future => item_id (fst f)) completed) ->
  controls (data (fst (drain total_count completed i st)))
  = controls (data st) ++ collected completed.
Proof.
  intros Hok. revert i st.
  induction Hok as [|[c [r|e]] l H _ IH]; intros i st Hnd; simpl.
  - now rewrite app_nil_r.
  - rewrite IH; simpl.
    + rewrite set_fresh.
      * now rewrite <- app_assoc.
      * apply NoDup_remove_2 in Hnd. intros Hin. apply Hnd.
        apply in_app_iff. now left.
    + rewrite set_fresh.
      * unfold Dict.keys. rewrite map_app, <- app_assoc. simpl.
        unfold Dict.keys in Hnd. simpl in Hnd.
        now apply NoDup_remove_1 in Hnd as Hnd1;
          apply NoDup_remove_2 in Hnd as Hnd2;
          apply (Permutation_NoDup (Permutation_middle _ _ _));
          constructor.
      * apply NoDup_remove_2 in Hnd. intros Hin. apply Hnd.
        apply in_app_iff. now left.
  - discriminate.
Qed.

Lemma writes_app (a b : list event) : writes (a ++ b) = writes a ++ writes b.
Proof. apply filter_app. Qed.


Lemma errors_app (a b : list event) : errors (a ++ b) = errors a ++ errors b.
Proof. apply flat_map_app. Qed.

Lemma progress_indicators (total_count : nat) (ks : list nat) :
  progress (map (fun k => EvProgress k total_count) ks)
    = map (fun k => (k, total_count)) ks
  /\ writes (map (fun k => EvProgress k total_count) ks) = []
  /\ errors (map (fun k => EvProgress k total_count) ks) = [].
Proof.
  induction ks as [|k ks (IH1 & IH2 & IH3)]; simpl; auto.
  now rewrite IH1, IH2, IH3.
Qed.


Lemma set_records {V : Type} (P : V -> Prop) (d : list (value * V)) (k : value) (v : V) :
  Forall (fun kv => P (snd kv)) d -> P v ->
  Forall (fun kv => P (snd kv)) (Dict.set value_eqb d k v).
Proof.
  induction 1 as [|[k' v'] d H Hd IH]; simpl; intros Hv.
  - constructor; [exact Hv|constructor].
  - destruct (value_eqb k' k); constructor; auto.
Qed.

(** The loop only stores what a future returned. *)
Lemma drain_records (P : ControlRecord -> Prop) (total_count : nat)
  (completed : list future) (i : nat) (st : run_state) :
  Forall (fun kv => P (snd kv)) (controls (data st)) ->
  (forall f record, In f completed -> snd f = Ok record -> P record) ->
  Forall (fun kv => P (snd kv))
         (controls (data (fst (drain total_count completed i st)))).
Proof.
  revert i st. induction completed as [|[c [r|e]] l IH]; intros i st Hst Hall; simpl.
  - exact Hst.
  - apply IH.
    + simpl. apply set_records; [exact Hst|].
      apply (Hall (c, Ok r)); [now left|reflexivity].
    + intros f record Hin. apply Hall. now right.
  - exact Hst.
Qed.

(** The values of a record, read in order, are its fields read by name in
    the header's order. *)
Lemma control_record_row (record : ControlRecord) :
  is_control_record record ->
  map Some (Dict.values record) = map (record_get record) header
  /\ List.length (Dict.values record) = 11.
Proof.
  unfold is_control_record, header. intros H.
  repeat (destruct record as [|[? ?] record]; [discriminate|];
          simpl in H; injection H as -> H).
  destruct record; [|discriminate]. split; reflexivity.
Qed.


(** ** The text of the rows *)

Lemma line_feeds_app (a b : string) :
  line_feeds (a ++ b) = line_feeds a + line_feeds b.
Proof.
  induction a as [|c a IH]; simpl; [reflexivity|]. rewrite IH. lia.
Qed.

Lemma line_feeds_double_quotes (s : string) :
  line_feeds (double_quotes s) = line_feeds s.
Proof.
  induction s as [|c r IH]; simpl; [reflexivity|].
  destruct (Ascii.eqb c DQ) eqn:E; simpl; rewrite IH.
  - apply Ascii.eqb_eq in E. subst c. reflexivity.
  - reflexivity.
Qed.

Lemma line_feeds_csv_field (s : string) : line_feeds (csv_field s) = line_feeds s.
Proof.
  unfold csv_field. destruct (needs_quotes s); [|reflexivity].
  simpl. rewrite line_feeds_app, line_feeds_double_quotes. simpl. lia.
Qed.

Lemma line_feeds_joined (fields : list string) :
  line_feeds (str_join "," (map csv_field fields))
  = list_sum (map line_feeds fields).
Proof.
  induction fields as [|f fs IH]; [reflexivity|].
  destruct fs as [|f' fs].
  - simpl. rewrite line_feeds_csv_field. lia.
  - change (str_join "," (map csv_field (f :: f' :: fs)))
      with (csv_field f ++ "," ++ str_join "," (map csv_field (f' :: fs)))%string.
    rewrite !line_feeds_app, IH, line_feeds_csv_field.
    simpl. lia.
Qed.

Lemma line_feeds_fields (fields : list string) :
  line_feeds (csv_fields_text fields) = 1 + list_sum (map line_feeds fields).
Proof.
  unfold csv_fields_text. rewrite line_feeds_app.
  replace (line_feeds (String CR (String LF ""))) with 1 by reflexivity.
  destruct fields as [|f [|f' fs]].
  - reflexivity.
  - destruct f; [reflexivity|]. rewrite (line_feeds_joined [String a f]). lia.
  - destruct f; rewrite line_feeds_joined; lia.
Qed.

Lemma line_feeds_row (row : list value) :
  line_feeds (csv_row_text row)
  = 1 + list_sum (map (fun v => line_feeds (py_str v)) row).
Proof.
  unfold csv_row_text. now rewrite line_feeds_fields, map_map.
Qed.

(** The text has one line per row and one more for every line feed inside
    a value. *)
Lemma line_feeds_text (rows : list (list value)) :
  line_feeds (csv_text rows) = List.length rows + embedded_line_feeds rows.
Proof.
  unfold embedded_line_feeds.
  induction rows as [|row rows IH]; [reflexivity|].
  simpl csv_text. rewrite line_feeds_app, line_feeds_row, IH. simpl. lia.
Qed.

Section MainFacts.
Variable session_get : string -> result string.
Variable create_soup : string -> soup.
Variable navigation_tree : result (list node).
Variable as_completed : list future -> list future.
Variable BENCHMARK_TITLE : string.
Variable FORMAT : format.
Variable OUTPUT : string.
Variable path_str : string -> string -> string.
Variable open_w : string -> option exn.

Local Notation "'the_run'" :=
  (main session_get create_soup navigation_tree as_completed
        BENCHMARK_TITLE FORMAT OUTPUT path_str open_w).
Local Notation "'saved' st" :=
  (save BENCHMARK_TITLE FORMAT OUTPUT path_str open_w st) (at level 10).
Local Notation "'the_file'" :=
  (output_file BENCHMARK_TITLE FORMAT OUTPUT path_str).
(** How a run that reached the end of the loop ends. *)
Local Notation "'ending'" :=
  (match open_w the_file with
   | None => Finished
   | Some e => Uncaught e
   end).
Local Notation "'parsed'" := (parse_navtree navigation_tree).
Local Notation "'completions' items" :=
  (as_completed (submit_all session_get create_soup items)) (at level 10).
Local Notation "'fetch' control" :=
  (fetch_control session_get create_soup control) (at level 10).
Local Notation "'start'" :=
  {| data := initial_data BENCHMARK_TITLE; trace := fst parsed |}.

(** Parsing the tree prints two notices at most, nothing else. *)
Lemma parse_navtree_prints :
  progress (fst parsed) = [] /\ writes (fst parsed) = [] /\ errors (fst parsed) = [].
Proof.
  unfold parse_navtree. destruct navigation_tree as [tree|e]; [|now repeat split].
  destruct (extract_each tree []); now repeat split.
Qed.

Lemma main_eq (items : list LeafItem) :
  snd parsed = Ok items ->
  the_run =
    match drain (List.length items) (completions items) 0 start with
    | (st, Some code) => (st, Exit code)
    | (st, None) => saved st
    end.
Proof.
  unfold main. destruct (parse_navtree navigation_tree) as [printed r].
  simpl. now intros ->.
Qed.

Lemma main_unparsed (e : exn) :
  snd parsed = Raise e -> the_run = (start, Uncaught e).
Proof.
  unfold main. destruct (parse_navtree navigation_tree) as [printed r].
  simpl. now intros ->.
Qed.

(** The whole run, by whether some completion raised. *)
Lemma main_cases (items : list LeafItem) :
  snd parsed = Ok items ->
  let looped := drain (List.length items) (completions items) 0 start in
  trace (fst looped) =
    fst parsed
    ++ map (fun k => EvProgress k (List.length items))
           (seq 1 (ok_prefix_len (completions items)))
    ++ match first_failure (completions items) with
       | Some (control, e) => [EvError (item_id control) e]
       | None => []
       end
  /\ the_run =
       match first_failure (completions items) with
       | Some _ => (fst looped, Exit 1)
       | None => saved (fst looped)
       end.
Proof.
  intros Hp looped.
  destruct (drain_trace (List.length items) (completions items) 0 start)
    as [Ht Hs].
  fold looped in Ht, Hs. split; [exact Ht|].
  rewrite (main_eq _ Hp). fold looped.
  destruct looped as [st code]. simpl in Hs. rewrite Hs.
  now destruct (first_failure (completions items)).
Qed.

(** The tail of [main]: what it leaves in the data and how it ends. *)
Lemma save_data (st : run_state) :
  controls (data (fst (saved st))) = controls (data st)
  /\ total (data (fst (saved st))) = Some (Dict.len (controls (data st)))
  /\ title (data (fst (saved st))) = title (data st)
  /\ saved st = (fst (saved st), ending).
Proof. unfold save. destruct (open_w the_file); repeat split. Qed.

(** The tail of [main]: what it prints and writes. *)
Lemma save_trace (st : run_state) :
  trace (fst (saved st))
  = trace st
    ++ EvInfo ("[*] Done! Saving to " ++ dquote ++ the_file ++ dquote)
       :: match open_w the_file with
          | None =>
              [ EvWrite OUTPUT
                  (OUTPUT_FILENAME BENCHMARK_TITLE ++ "." ++ format_str FORMAT)%string
                  match FORMAT with
                  | json => JsonDump (data (fst (saved st)))
                  | csv => CsvRows (csv_rows (data (fst (saved st))))
                  end ]
          | Some _ => []
          end.
Proof.
  unfold save, emit. destruct (open_w the_file); simpl;
    rewrite <- ?app_assoc; reflexivity.
Qed.


(** On an exit the run has printed one error and written nothing. *)
Lemma main_failure (items : list LeafItem) (control : LeafItem) (e : exn) :
  snd parsed = Ok items ->
  first_failure (completions items) = Some (control, e) ->
  exists st,
    the_run = (st, Exit 1)
    /\ writes (trace st) = []
    /\ errors (trace st) = [(item_id control, e)].
Proof.
  intros Hp Hf. destruct (main_cases _ Hp) as [Ht Hm].
  rewrite Hf in Ht, Hm. eexists. split; [exact Hm|].
  destruct parse_navtree_prints as (_ & Pw & Pe).
  destruct (progress_indicators (List.length items)
              (seq 1 (ok_prefix_len (completions items)))) as (_ & Iw & Ie).
  rewrite Ht, !writes_app, !errors_app, Pw, Pe, Iw, Ie. now split.
Qed.

Section Completion.
(** [as_completed] yields every submitted future once. *)
Hypothesis every_future_completes :
  forall fs, Permutation (as_completed fs) fs.

Lemma completions_in (items : list LeafItem) (control : LeafItem)
  (r : result ControlRecord) :
  In (control, r) (completions items) <-> In control items /\ r = fetch control.
Proof.
  split.
  - intros H. apply (Permutation_in _ (every_future_completes _)) in H.
    unfold submit_all in H. apply in_map_iff in H as (c & [= <- <-] & Hc).
    now split.
  - intros [H ->].
    apply (Permutation_in _ (Permutation_sym (every_future_completes _))).
    unfold submit_all. apply in_map_iff. now exists control.
Qed.

(** C2 - when one of the dispatched fetches raises, the run ends with
    exit status 1 and no file has been written, whatever the completion
    order and however many other fetches succeeded. *)
Theorem fail_fast (items : list LeafItem) (control : LeafItem) :
  snd parsed = Ok items ->
  In control items ->
  failed (fetch control) = true ->
  exists st culprit e,
    the_run = (st, Exit 1)
    /\ exit_status (snd the_run) <> 0%Z
    /\ writes (trace st) = []
    /\ In culprit items /\ fetch culprit = Raise e
    /\ errors (trace st) = [(item_id culprit, e)].
Proof.
  intros Hp Hin Hf.
  assert (Hc : In (control, fetch control) (completions items))
    by now apply completions_in.
  destruct (first_failure_some _ _ Hc Hf) as (culprit & e & Hff & Hcul).
  apply completions_in in Hcul as [Hcul Hraise].
  destruct (main_failure _ _ _ Hp Hff) as (st & Hm & Hw & He).
  exists st, culprit, e. rewrite Hm. simpl.
  repeat split; auto. discriminate.
Qed.


Lemma completions_all_ok (items : list LeafItem) :
  (forall c, In c items -> failed (fetch c) = false) ->
  all_ok (completions items).
Proof.
  intros H. apply Forall_forall. intros [c r] Hin.
  apply completions_in in Hin as [Hin ->]. now apply H.
Qed.

Lemma completions_ids (items : list LeafItem) :
  Permutation (map (fun f : future => item_id (fst f)) (completions items))
              (map item_id items).
Proof.
  rewrite (Permutation_map _ (every_future_completes _)).
  unfold submit_all. rewrite map_map. simpl. reflexivity.
Qed.

(** C3 - with pairwise distinct ids and every fetch successful, the
    controls map ends with one entry per item under the item's id;
    [total] is still unset after any number of completions and is set,
    after the loop, to the number of entries; the run then finishes, or
    dies of what [open] raised. *)
Theorem aggregation_unique (items : list LeafItem) :
  snd parsed = Ok items ->
  NoDup (map item_id items) ->
  (forall c, In c items -> failed (fetch c) = false) ->
  exists st,
    the_run = (st, ending)
    /\ Dict.len (controls (data st)) = List.length items
    /\ Permutation (Dict.keys (controls (data st))) (map item_id items)
    /\ (forall c, In c items ->
          exists record,
            fetch c = Ok record
            /\ Dict.get value_eqb (controls (data st)) (item_id c) = Some record)
    /\ total (data st) = Some (Dict.len (controls (data st)))
    /\ forall k,
         total (data (fst (drain (List.length items)
                             (firstn k (completions items)) 0 start))) = None.
Proof.
  intros Hp Hnd Hok.
  pose proof (completions_all_ok _ Hok) as Hall.
  pose proof (completions_ids items) as Hids.
  destruct (first_failure_all_ok _ Hall) as [Hff _].
  destruct (main_cases _ Hp) as [_ Hm]. rewrite Hff in Hm.
  destruct (save_data (fst (drain (List.length items) (completions items) 0 start)))
    as (Hc & Ht & _ & Hs).
  eexists. split; [rewrite Hm; exact Hs|].
  rewrite Ht, Hc.
  assert (Ec : controls (data (fst (drain (List.length items)
                                      (completions items) 0 start)))
               = collected (completions items)).
  { rewrite drain_controls; [reflexivity|exact Hall|].
    simpl. apply (Permutation_NoDup (Permutation_sym Hids) Hnd). }
  rewrite Ec.
  assert (Ek : Permutation (Dict.keys (collected (completions items)))
                           (map item_id items))
    by now rewrite keys_collected.
  repeat split.
  - unfold Dict.len. apply Permutation_length in Ek.
    unfold Dict.keys in Ek. now rewrite !length_map in Ek.
  - exact Ek.
  - intros c Hc'. specialize (Hok c Hc').
    destruct (fetch c) as [record|e] eqn:E; [|discriminate].
    exists record. split; [reflexivity|].
    apply get_unique.
    + apply (Permutation_NoDup (Permutation_sym Ek) Hnd).
    + unfold collected. apply in_flat_map. exists (c, Ok record).
      split; [|now left]. apply completions_in. now rewrite E.
  - intros k.
    now destruct (drain_total (List.length items)
                    (firstn k (completions items)) 0 start) as [-> _].
Qed.

(** Every record a finished run holds was built by [__fetch_control],
    and the run wrote one file. *)
Lemma main_records (st : run_state) :
  the_run = (st, Finished) ->
  Forall (fun kv => is_control_record (snd kv)) (controls (data st))
  /\ writes (trace st) =
       [ EvWrite OUTPUT
           (OUTPUT_FILENAME BENCHMARK_TITLE ++ "." ++ format_str FORMAT)%string
           match FORMAT with
           | json => JsonDump (data st)
           | csv => CsvRows (csv_rows (data st))
           end ].
Proof.
  destruct (snd parsed) as [items|e] eqn:Hp;
    [|rewrite (main_unparsed _ Hp); discriminate].
  destruct (main_cases _ Hp) as [Hl Hm]. rewrite Hm.
  destruct (first_failure (completions items)) as [[c e]|]; [discriminate|].
  destruct (save_data (fst (drain (List.length items) (completions items) 0 start)))
    as (Hc & _ & _ & Hs).
  pose proof (save_trace (fst (drain (List.length items) (completions items) 0 start)))
    as Ht.
  rewrite Hs. destruct (open_w the_file); [discriminate|].
  intros [= <-].
  split.
  - rewrite Hc. apply drain_records; [constructor|].
    intros [c r] record Hin E. simpl in E. subst r.
    apply completions_in in Hin as [_ Hin]. symmetry in Hin.
    now apply fetch_control_ok in Hin as (_ & _ & H & _).
  - rewrite Ht, Hl.
    destruct parse_navtree_prints as (_ & Pw & _).
    destruct (progress_indicators (List.length items)
                (seq 1 (ok_prefix_len (completions items)))) as (_ & Iw & _).
    now rewrite !writes_app, Pw, Iw.
Qed.

(** C6, amended - the tabular writer is handed the header row of the
    eleven field names, then one row per entry of the controls map in the
    map's iteration order, each row holding the record's values in the
    header's field order; with two entries that is three rows of eleven
    fields.  A finished run in the [csv] format writes exactly these rows.
    The text written has one line per row and one more for every line feed
    inside a value. *)
Theorem tabular_rows :
  (forall d : BenchmarkData,
     Forall (fun kv => is_control_record (snd kv)) (controls d) ->
     exists rows,
       csv_rows d = map VStr header :: rows
       /\ header = [ "id"; "key"; "title"; "assessment_status"; "description";
                     "rationale"; "impact"; "audit"; "remediation";
                     "default_value"; "references" ]
       /\ Forall2 (fun row kv => map Some row = map (record_get (snd kv)) header)
                  rows (controls d)
       /\ (Dict.len (controls d) = 2 ->
           List.length (csv_rows d) = 3
           /\ Forall (fun row => List.length row = 11) (csv_rows d)))
  /\ (forall st,
        the_run = (st, Finished) -> FORMAT = csv ->
        Forall (fun kv => is_control_record (snd kv)) (controls (data st))
        /\ writes (trace st)
           = [ EvWrite OUTPUT (OUTPUT_FILENAME BENCHMARK_TITLE ++ ".csv")%string
                 (CsvRows (csv_rows (data st))) ])
  /\ (forall d : BenchmarkData,
        line_feeds (csv_text (csv_rows d))
        = List.length (csv_rows d) + embedded_line_feeds (csv_rows d)).
Proof.
  split; [|split; [|intros d; apply line_feeds_text]].
  - intros d Hd. exists (map (fun record : ControlRecord => Dict.values record)
                             (Dict.values (controls d))).
    split; [reflexivity|split; [reflexivity|split]].
    + unfold Dict.values at 2. induction Hd as [|[k record] l H _ IH]; simpl;
        constructor; [|exact IH].
      now apply control_record_row.
    + intros Hlen. unfold csv_rows. split.
      * simpl. unfold Dict.values at 2. rewrite !length_map. now f_equal.
      * constructor; [reflexivity|].
        apply Forall_forall. intros row Hrow.
        apply in_map_iff in Hrow as (record & <- & Hin).
        apply in_map_iff in Hin as (kv & <- & Hin).
        rewrite Forall_forall in Hd.
        now apply control_record_row, Hd.
  - intros st Hm Hf. destruct (main_records st Hm) as [Hrec Hw].
    split; [exact Hrec|]. now rewrite Hw, Hf.
Qed.

End Completion.
End MainFacts.

(** ** Sample runs *)

Lemma reversed_completes (fs : list future) : Permutation (reversed fs) fs.
Proof. apply Permutation_sym, Permutation_rev. Qed.

Lemma fail_fast_witness :
  exists st culprit e,
    run_partial = (st, Exit 1)
    /\ exit_status (snd run_partial) <> 0%Z
    /\ writes (trace st) = []
    /\ In culprit [sample_item; group_item]
    /\ fetch_control session_only_A parse_sample culprit = Raise e
    /\ errors (trace st) = [(item_id culprit, e)].
Proof.
  apply (fail_fast session_only_A parse_sample (Ok [group_G]) reversed
           "CIS Demo Benchmark" json "output" join_path open_ok reversed_completes
           [sample_item; group_item] group_item).
  - reflexivity.
  - simpl. auto.
  - reflexivity.
Defined.

Lemma aggregation_unique_witness :
  exists st,
    run_full json = (st, Finished)
    /\ Dict.len (controls (data st)) = 2
    /\ Permutation (Dict.keys (controls (data st))) [VStr "A"; VStr "G"]
    /\ (forall c, In c [sample_item; group_item] ->
          exists record,
            fetch_control session_up parse_sample c = Ok record
            /\ Dict.get value_eqb (controls (data st)) (item_id c) = Some record)
    /\ total (data st) = Some (Dict.len (controls (data st)))
    /\ forall k,
         total (data (fst (drain 2
                             (firstn k (reversed (submit_all session_up parse_sample
                                                    [sample_item; group_item])))
                             0
                             {| data := initial_data "CIS Demo Benchmark";
                                trace := fst (parse_navtree (Ok [group_G])) |})))
         = None.
Proof.
  apply (aggregation_unique session_up parse_sample (Ok [group_G]) reversed
           "CIS Demo Benchmark" json "output" join_path open_ok reversed_completes
           [sample_item; group_item]).
  - reflexivity.
  - repeat constructor; simpl; intuition discriminate.
  - intros c [<-|[<-|[]]]; reflexivity.
Defined.



Lemma tabular_rows_witness :
  (exists rows,
     csv_rows (data (fst (run_full csv))) = map VStr header :: rows
     /\ header = [ "id"; "key"; "title"; "assessment_status"; "description";
                   "rationale"; "impact"; "audit"; "remediation";
                   "default_value"; "references" ]
     /\ Forall2 (fun row kv => map Some row = map (record_get (snd kv)) header)
                rows (controls (data (fst (run_full csv))))
     /\ (Dict.len (controls (data (fst (run_full csv)))) = 2 ->
         List.length (csv_rows (data (fst (run_full csv)))) = 3
         /\ Forall (fun row => List.length row = 11)
                   (csv_rows (data (fst (run_full csv))))))
  /\ Forall (fun kv => is_control_record (snd kv))
            (controls (data (fst (run_full csv))))
  /\ writes (trace (fst (run_full csv)))
     = [ EvWrite "output" "CIS_Demo_Benchmark.csv"
           (CsvRows (csv_rows (data (fst (run_full csv))))) ]
  /\ line_feeds (csv_text (csv_rows (data (fst (run_full csv)))))
     = 3 + embedded_line_feeds (csv_rows (data (fst (run_full csv)))).
Proof.
  pose proof (tabular_rows session_up parse_sample (Ok [group_G]) reversed
                "CIS Demo Benchmark" csv "output" join_path open_ok
                reversed_completes) as (H1 & H2 & H3).
  split; [|split; [|split]].
  - apply H1. repeat constructor.
  - apply (H2 (fst (run_full csv))); reflexivity.
  - apply (H2 (fst (run_full csv))); reflexivity.
  - apply (H3 (data (fst (run_full csv)))).
Defined.

(** C6, as stated, fails: this result has two controls and is written as
    three rows, but the description of each control runs over two lines, so
    the text written has five lines, not three. *)
Lemma tabular_text_has_more_lines :
  snd run_two_line = Finished
  /\ Dict.len (controls (data (fst run_two_line))) = 2
  /\ writes (trace (fst run_two_line))
     = [ EvWrite "output" "CIS_Demo_Benchmark.csv"
           (CsvRows (csv_rows (data (fst run_two_line)))) ]
  /\ List.length (csv_rows (data (fst run_two_line))) = 3
  /\ line_feeds (csv_text (csv_rows (data (fst run_two_line)))) = 5
  /\ line_feeds (csv_text (csv_rows (data (fst run_two_line)))) <> 3.
Proof. repeat split. discriminate. Qed.

Example two_line_row_text :
  csv_row_text [VStr "A"; VStr ("Ensure X" ++ String LF "is set."); VStr "a,b"]
  = ("A," ++ String DQ ("Ensure X" ++ String LF ("is set." ++ String DQ
      ("," ++ String DQ ("a,b" ++ String DQ (String CR (String LF "")))))))%string.
Proof. reflexivity. Qed.


Example render_progress :
  map render (trace (fst run_ordered))
  = [ "[*] Parsing navigation tree"; "[*] Parsing completed";
      "Scraping 1/2 controls...";
      "Error scraping control G: connection refused" ].
Proof. reflexivity. Qed.

(** The scenario of one group holding two recommendations fetched
    successfully: two entries, [total] is 2. *)
Example run_full_total :
  snd (run_full json) = Finished
  /\ Dict.keys (controls (data (fst (run_full json)))) = [VStr "G"; VStr "A"]
  /\ total (data (fst (run_full json))) = Some 2.
Proof. repeat split. Qed.

(* ================================================================== *)
(** * Further properties *)

(** ** More on the flattener *)

Lemma filter_flat_map {A B : Type} (f : B -> bool) (g : A -> list B) (l : list A) :
  filter f (flat_map g l) = flat_map (fun x => filter f (g x)) l.
Proof.
  induction l as [|x l IH]; simpl; [reflexivity|].
  now rewrite filter_app, IH.
Qed.

Lemma emitted_postorder (n : node) :
  emitted n = filter lacks_subsections (postorder n).
Proof.
  induction n as [i t v s subs recs IHs IHr] using node_ind.
  assert (Hflat : forall l,
            Forall (fun x => emitted x = filter lacks_subsections (postorder x)) l ->
            flat_map emitted l = filter lacks_subsections (flat_map postorder l)).
  { intros l Hl. rewrite filter_flat_map. now apply flat_map_ext_Forall. }
  cbn [emitted postorder]. rewrite !filter_app.
  f_equal; [|f_equal].
  - destruct subs as [l|]; [|reflexivity]. now apply Hflat.
  - destruct recs as [l|]; [|reflexivity]. now apply Hflat.
  - destruct subs; reflexivity.
Qed.

Lemma leaf_item_first_missing (n : node) :
  match first_missing n with
  | Some k => leaf_item n = Raise (KeyError k)
  | None =>
      exists id title view_level section_id,
        n_id n = Some id /\ n_title n = Some title
        /\ n_view_level n = Some view_level /\ n_section_id n = Some section_id
        /\ leaf_item n =
             Ok {| item_id := id;
                   item_title := title;
                   item_key := (py_str view_level ++ " " ++ py_str title)%string;
                   item_url := ("https://workbench.cisecurity.org/sections/"
                                ++ py_str section_id ++ "/recommendations/"
                                ++ py_str id)%string |}
  end.
Proof.
  destruct n as [[i|] [t|] [v|] [s|] subs recs]; cbn; try reflexivity.
  exists i, t, v, s. repeat split.
Qed.

Lemma map_result_first_key_error (l : list node) :
  match first_key_error l with
  | Some k => map_result leaf_item l = Raise (KeyError k)
  | None =>
      exists items,
        map_result leaf_item l = Ok items /\ List.length items = List.length l
  end.
Proof.
  induction l as [|m l IH]; simpl.
  - now exists [].
  - pose proof (leaf_item_first_missing m) as Hm.
    destruct (first_missing m) as [k|].
    + now rewrite Hm.
    + destruct Hm as (i & t & v & s & _ & _ & _ & _ & ->). simpl.
      destruct (first_key_error l) as [k|].
      * now rewrite IH.
      * destruct IH as (items & -> & Hlen). simpl.
        eexists. split; [reflexivity|]. simpl. now rewrite Hlen.
Qed.

(** X1 - what the call appends does not depend on what the list already holds,
    and nothing already in the list is dropped or reordered. *)
Theorem flatten_accumulates (n : node) (acc : list LeafItem) :
  extract_subsections n acc =
    match extract_subsections n [] with
    | Ok items => Ok (acc ++ items)
    | Raise e => Raise e
    end.
Proof.
  rewrite !extract_subsections_emitted.
  now destruct (map_result leaf_item (emitted n)).
Qed.

(** X2 - the flattener appends one descriptor per node that has no subsections
    key, in post-order, duplicates included. *)
Theorem flatten_postorder (n : node) (acc out : list LeafItem) :
  extract_subsections n acc = Ok out ->
  exists items,
    out = acc ++ items
    /\ Forall2 (fun m item => leaf_item m = Ok item)
               (filter lacks_subsections (postorder n)) items
    /\ List.length items
       = List.length (filter lacks_subsections (postorder n)).
Proof.
  rewrite extract_subsections_emitted, emitted_postorder.
  destruct (map_result leaf_item _) as [items|e] eqn:E; simpl; [|discriminate].
  intros [= <-]. exists items. apply map_result_Forall2 in E.
  repeat split; [exact E|]. symmetry. now apply Forall2_length in E.
Qed.

Lemma flatten_postorder_witness :
  exists items,
    [sample_item; group_item] = [] ++ items
    /\ Forall2 (fun m item => leaf_item m = Ok item)
               (filter lacks_subsections (postorder group_G)) items
    /\ List.length items
       = List.length (filter lacks_subsections (postorder group_G)).
Proof. apply (flatten_postorder group_G [] [sample_item; group_item]). reflexivity. Defined.

(** X3 - the flattener raises exactly when a node without a subsections key
    misses one of [id], [title], [view_level], [section_id]: it raises
    [KeyError] for the first such key of the first such node in post-order;
    a node with a subsections key is never asked for these keys. *)
Theorem flatten_key_error (n : node) (acc : list LeafItem) :
  match first_key_error (filter lacks_subsections (postorder n)) with
  | Some k => extract_subsections n acc = Raise (KeyError k)
  | None => exists items, extract_subsections n acc = Ok (acc ++ items)
  end.
Proof.
  rewrite extract_subsections_emitted, emitted_postorder.
  pose proof (map_result_first_key_error (filter lacks_subsections (postorder n))) as H.
  destruct (first_key_error _) as [k|].
  - now rewrite H.
  - destruct H as (items & -> & _). now exists items.
Qed.

(** X4 - a list of trees is flattened tree by tree, in order, and the results
    are concatenated behind what the list already holds. *)
Theorem flatten_forest (trees : list node) (acc : list LeafItem) :
  extract_each trees acc =
    (parts <- map_result (fun n => extract_subsections n []) trees ;;
     Ok (acc ++ List.concat parts)).
Proof.
  revert acc. induction trees as [|n trees IH]; intros acc; simpl.
  - now rewrite app_nil_r.
  - rewrite (extract_subsections_emitted n acc), (extract_subsections_emitted n []).
    destruct (map_result leaf_item (emitted n)) as [items|e]; simpl; [|reflexivity].
    rewrite IH.
    destruct (map_result _ trees) as [parts|e]; simpl; [|reflexivity].
    now rewrite app_assoc.
Qed.

(** X5 - each appended descriptor carries the [id] and [title] of its node and
    the URL built from the node's [section_id] and [id]. *)
Theorem descriptor_fields (n : node) (acc out : list LeafItem) :
  extract_subsections n acc = Ok out ->
  exists items,
    out = acc ++ items
    /\ Forall2 (fun m item =>
                  exists section_id,
                    n_id m = Some (item_id item)
                    /\ n_title m = Some (item_title item)
                    /\ n_section_id m = Some section_id
                    /\ item_url item
                       = ("https://workbench.cisecurity.org/sections/"
                          ++ py_str section_id ++ "/recommendations/"
                          ++ py_str (item_id item))%string)
               (emitted n) items.
Proof.
  rewrite extract_subsections_emitted.
  destruct (map_result leaf_item (emitted n)) as [items|e] eqn:E;
    simpl; [|discriminate].
  intros [= <-]. exists items. split; [reflexivity|].
  apply map_result_Forall2 in E. eapply Forall2_impl; [|exact E].
  intros m item Hm. cbv beta in Hm.
  pose proof (leaf_item_first_missing m) as H.
  destruct (first_missing m); [congruence|].
  destruct H as (i & t & v & s & Hi & Ht & Hv & Hs & H).
  rewrite H in Hm. injection Hm as <-. simpl. eauto.
Qed.

Lemma descriptor_fields_witness :
  exists items,
    [sample_item; group_item] = [] ++ items
    /\ Forall2 (fun m item =>
                  exists section_id,
                    n_id m = Some (item_id item)
                    /\ n_title m = Some (item_title item)
                    /\ n_section_id m = Some section_id
                    /\ item_url item
                       = ("https://workbench.cisecurity.org/sections/"
                          ++ py_str section_id ++ "/recommendations/"
                          ++ py_str (item_id item))%string)
               (emitted group_G) items.
Proof. apply (descriptor_fields group_G [] [sample_item; group_item]). reflexivity. Defined.

Lemma flatten_leaves_when_sections_keyed_witness :
  exists items,
    extract_subsections section_S [] = Ok ([] ++ items)
    /\ Forall2 (fun m item => leaf_item m = Ok item)
               (filter is_leaf (nodes section_S)) items.
Proof.
  apply (flatten_leaves_when_sections_keyed section_S []).
  - intros m [<-|[<-|[<-|[]]]]; intros H; try reflexivity; discriminate.
  - intros m [<-|[<-|[<-|[]]]]; intros H; try reflexivity; discriminate.
Defined.

(** ** More on trimming *)

Lemma whitespace_only_app (a b : string) :
  whitespace_only (a ++ b) = whitespace_only a && whitespace_only b.
Proof.
  induction a as [|c a IH]; simpl; [reflexivity|].
  now rewrite IH, andb_assoc.
Qed.

Lemma lstrip_app (s r : string) :
  lstrip (s ++ r) = if whitespace_only s then lstrip r else (lstrip s ++ r)%string.
Proof.
  induction s as [|c s IH]; simpl; [reflexivity|].
  destruct (isspace c); simpl; [exact IH|reflexivity].
Qed.

Lemma rstrip_whitespace (r : string) : whitespace_only r = true -> rstrip r = "".
Proof.
  induction r as [|c r IH]; simpl; [reflexivity|].
  intros H. apply andb_true_iff in H as [Hc Hr]. now rewrite (IH Hr), Hc.
Qed.

Lemma rstrip_app (s r : string) :
  whitespace_only r = true -> rstrip (s ++ r) = rstrip s.
Proof.
  intros Hr. induction s as [|c s IH]; simpl.
  - now apply rstrip_whitespace.
  - now rewrite IH.
Qed.

(** X7 - whitespace around a text does not change what [__parse_text] returns. *)
Theorem parse_text_ignores_padding (l s r : string) :
  whitespace_only l = true -> whitespace_only r = true ->
  parse_text (l ++ s ++ r) = parse_text s.
Proof.
  intros Hl Hr. rewrite !parse_text_strip. unfold strip.
  rewrite lstrip_app, Hl, lstrip_app.
  destruct (whitespace_only s) eqn:Hs.
  - rewrite (lstrip_whitespace r Hr), (lstrip_whitespace s Hs). reflexivity.
  - now apply rstrip_app.
Qed.

Lemma parse_text_ignores_padding_witness :
  parse_text ("  " ++ "Ensure X" ++ String (ascii_of_nat 10) " ")
  = parse_text "Ensure X".
Proof. apply parse_text_ignores_padding; reflexivity. Defined.

(** ** More on the detail fetcher *)

Section FetchTotal.
Variable session_get : string -> result string.
Variable create_soup : string -> soup.

(** X8 - when the page arrives and holds the eight elements, [__fetch_control]
    returns: a record of the eleven fields in the header's order, the first
    three copied from the descriptor and the others the trimmed texts. *)
Theorem fetch_succeeds_when_complete (control : LeafItem) (html : string) :
  session_get (item_url control) = Ok html ->
  (forall name tag ident,
     In (name, (tag, ident)) locators ->
     find (create_soup html) tag ident <> None) ->
  exists record,
    fetch_control session_get create_soup control = Ok record
    /\ map fst record = header
    /\ record_get record "id" = Some (item_id control)
    /\ record_get record "key" = Some (VStr (item_key control))
    /\ record_get record "title" = Some (item_title control)
    /\ forall name tag ident,
         In (name, (tag, ident)) locators ->
         exists el,
           find (create_soup html) tag ident = Some el
           /\ record_get record name = Some (VStr (parse_text (text el))).
Proof.
  intros Hget Hall.
  destruct (fetch_control session_get create_soup control) as [record|e] eqn:E.
  - exists record. split; [reflexivity|].
    apply fetch_control_ok in E as (html' & Hget' & Hrec & Hid & Hkey & Htitle & Hf).
    rewrite Hget in Hget'. injection Hget' as <-. repeat split; assumption.
  - exfalso. revert E. unfold fetch_control. rewrite Hget. cbn [bind].
    unfold extract.
    repeat match goal with
           | |- context [find (create_soup html) ?tag ?ident] =>
               let F := fresh "F" in
               destruct (find (create_soup html) tag ident) eqn:F; cbn [bind];
               [|exfalso; eapply Hall; [|exact F]; simpl; tauto]
           end.
    discriminate.
Qed.

End FetchTotal.

Lemma fetch_succeeds_when_complete_witness :
  exists record,
    fetch_control session_up parse_sample sample_item = Ok record
    /\ map fst record = header
    /\ record_get record "id" = Some (item_id sample_item)
    /\ record_get record "key" = Some (VStr (item_key sample_item))
    /\ record_get record "title" = Some (item_title sample_item)
    /\ forall name tag ident,
         In (name, (tag, ident)) locators ->
         exists el,
           find (parse_sample "<html>") tag ident = Some el
           /\ record_get record name = Some (VStr (parse_text (text el))).
Proof.
  apply (fetch_succeeds_when_complete session_up parse_sample sample_item "<html>").
  - reflexivity.
  - intros name tag ident Hin. cbn in Hin.
    repeat (destruct Hin as [[= <- <- <-]|Hin]; [discriminate|]).
    contradiction.
Defined.

(** ** More on the aggregation loop *)

Lemma value_eqb_refl (a : value) : value_eqb a a = true.
Proof. now apply value_eqb_eq. Qed.

Lemma value_eqb_neq (a b : value) : value_eqb a b = false <-> a <> b.
Proof.
  split.
  - intros H E. apply value_eqb_eq in E. congruence.
  - intros H. destruct (value_eqb a b) eqn:E; [|reflexivity].
    apply value_eqb_eq in E. contradiction.
Qed.

(** Reading after a store. *)
Lemma get_set {V : Type} (d : list (value * V)) (k k' : value) (v : V) :
  Dict.get value_eqb (Dict.set value_eqb d k v) k'
  = if value_eqb k k' then Some v else Dict.get value_eqb d k'.
Proof.
  induction d as [|[k0 v0] d IH]; simpl.
  - reflexivity.
  - destruct (value_eqb k0 k) eqn:E0; simpl.
    + apply value_eqb_eq in E0. subst k0. now destruct (value_eqb k k').
    + rewrite IH. destruct (value_eqb k0 k') eqn:E1; [|reflexivity].
      apply value_eqb_eq in E1. subst k'. now rewrite (proj2 (value_eqb_neq k k0))
        by (intros ->; now rewrite value_eqb_refl in E0).
Qed.

Lemma set_present {V : Type} (d : list (value * V)) (k : value) (v : V) :
  In k (Dict.keys d) -> Dict.keys (Dict.set value_eqb d k v) = Dict.keys d.
Proof.
  induction d as [|[k0 v0] d IH]; simpl; [contradiction|].
  intros [->|H].
  - now rewrite value_eqb_refl.
  - destruct (value_eqb k0 k); simpl; [reflexivity|]. f_equal. now apply IH.
Qed.

Lemma keys_set {V : Type} (d : list (value * V)) (k : value) (v : V) :
  (forall x, In x (Dict.keys (Dict.set value_eqb d k v)) <-> x = k \/ In x (Dict.keys d))
  /\ (NoDup (Dict.keys d) -> NoDup (Dict.keys (Dict.set value_eqb d k v)))
  /\ Dict.len (Dict.set value_eqb d k v) <= S (Dict.len d).
Proof.
  assert (Hdec : In k (Dict.keys d) \/ ~ In k (Dict.keys d)).
  { destruct (existsb (value_eqb k) (Dict.keys d)) eqn:E.
    - left. apply existsb_exists in E as (x & Hx & Ex).
      apply value_eqb_eq in Ex. now subst.
    - right. intros H. apply not_true_iff_false in E. apply E.
      apply existsb_exists. exists k. split; [exact H|apply value_eqb_refl]. }
  assert (Hlen : forall d' : list (value * V),
            Dict.len d' = List.length (Dict.keys d'))
    by (intros d'; unfold Dict.len, Dict.keys; now rewrite length_map).
  rewrite !Hlen.
  destruct Hdec as [Hin|Hout].
  - rewrite (set_present _ _ _ Hin). split; [|split].
    + intros x. split; [tauto|]. intros [->|H]; assumption.
    + tauto.
    + lia.
  - rewrite (set_fresh _ _ _ Hout). unfold Dict.keys. rewrite map_app. simpl.
    split; [|split].
    + intros x. rewrite in_app_iff. simpl. split.
      * intros [H|[<-|[]]]; tauto.
      * intros [->|H]; tauto.
    + intros Hnd. apply (Permutation_NoDup (Permutation_cons_append _ _)).
      now constructor.
    + rewrite length_app. simpl. lia.
Qed.

Lemma get_none {V : Type} (d : list (value * V)) (k : value) :
  Dict.get value_eqb d k = None <-> ~ In k (Dict.keys d).
Proof.
  induction d as [|[k0 v0] d IH]; simpl.
  - tauto.
  - destruct (value_eqb k0 k) eqn:E.
    + apply value_eqb_eq in E. split; [discriminate|tauto].
    + apply value_eqb_neq in E. rewrite IH. tauto.
Qed.

(** The loop, when nothing fails: what each id maps to, and which ids. *)
Lemma drain_all_ok (total_count : nat) (completed : list future) (i : nat)
  (st : run_state) :
  all_ok completed ->
  let final := controls (data (fst (drain total_count completed i st))) in
  (forall control_id,
     Dict.get value_eqb final control_id
     = match last_for control_id completed with
       | Some record => Some record
       | None => Dict.get value_eqb (controls (data st)) control_id
       end)
  /\ (forall control_id,
        In control_id (Dict.keys final)
        <-> In control_id (Dict.keys (controls (data st)))
            \/ In control_id (ids_of completed))
  /\ (NoDup (Dict.keys (controls (data st))) -> NoDup (Dict.keys final))
  /\ Dict.len final <= Dict.len (controls (data st)) + List.length completed.
Proof.
  intros Hok. revert i st.
  induction Hok as [|[c [r|e]] l H _ IH]; intros i st; simpl.
  - repeat split; auto; try tauto. lia.
  - specialize (IH (S i) (emit (store_control st (item_id c) r)
                                (EvProgress (i + 1) total_count))).
    simpl in IH. destruct IH as (Hget & Hkeys & Hnd & Hlen).
    destruct (keys_set (controls (data st)) (item_id c) r) as (Kin & Knd & Klen).
    repeat split.
    + intros control_id. rewrite Hget, get_set.
      destruct (last_for control_id l); [reflexivity|].
      now destruct (value_eqb (item_id c) control_id).
    + intros Hin. apply Hkeys in Hin as [Hin|Hin]; [|tauto].
      apply Kin in Hin as [->|Hin]; tauto.
    + intros [Hin|[<-|Hin]]; apply Hkeys.
      * left. apply Kin. tauto.
      * left. apply Kin. tauto.
      * tauto.
    + intros Hst. apply Hnd, Knd, Hst.
    + lia.
  - discriminate.
Qed.


(** The loop only looks at the completions up to the first failure. *)
Lemma drain_ok_prefix (total_count : nat) (completed : list future) (i : nat)
  (st : run_state) :
  data (fst (drain total_count completed i st))
  = data (fst (drain total_count
                 (firstn (ok_prefix_len completed) completed) i st))
  /\ all_ok (firstn (ok_prefix_len completed) completed).
Proof.
  revert i st. induction completed as [|[c [r|e]] l IH]; intros i st; simpl.
  - split; [reflexivity|constructor].
  - destruct (IH (S i) (emit (store_control st (item_id c) r)
                             (EvProgress (i + 1) total_count))) as [H1 H2].
    split; [exact H1|]. constructor; [reflexivity|exact H2].
  - split; [reflexivity|constructor].
Qed.

Lemma extract_each_key_error (tree : list node) (acc : list LeafItem) :
  match first_key_error
          (flat_map (fun n => filter lacks_subsections (postorder n)) tree) with
  | Some k => extract_each tree acc = Raise (KeyError k)
  | None =>
      exists items,
        extract_each tree acc = Ok (acc ++ items)
        /\ List.length items
           = List.length
               (flat_map (fun n => filter lacks_subsections (postorder n)) tree)
  end.
Proof.
  rewrite extract_each_emitted
    by (apply Forall_forall; intros n _; apply extract_subsections_emitted).
  rewrite (flat_map_ext_Forall emitted
             (fun n => filter lacks_subsections (postorder n)))
    by (apply Forall_forall; intros n _; apply emitted_postorder).
  pose proof (map_result_first_key_error
                (flat_map (fun n => filter lacks_subsections (postorder n)) tree))
    as H.
  destruct (first_key_error _) as [k|].
  - now rewrite H.
  - destruct H as (items & -> & Hlen). now exists items.
Qed.

Section MainMore.
Variable session_get : string -> result string.
Variable create_soup : string -> soup.
Variable navigation_tree : result (list node).
Variable as_completed : list future -> list future.
Variable BENCHMARK_TITLE : string.
Variable FORMAT : format.
Variable OUTPUT : string.
Variable path_str : string -> string -> string.
Variable open_w : string -> option exn.

Local Notation "'the_run'" :=
  (main session_get create_soup navigation_tree as_completed
        BENCHMARK_TITLE FORMAT OUTPUT path_str open_w).
Local Notation "'saved' st" :=
  (save BENCHMARK_TITLE FORMAT OUTPUT path_str open_w st) (at level 10).
Local Notation "'the_file'" :=
  (path_str OUTPUT (OUTPUT_FILENAME BENCHMARK_TITLE ++ "." ++ format_str FORMAT)%string).
Local Notation "'ending'" :=
  (match open_w the_file with
   | None => Finished
   | Some e => Uncaught e
   end).
Local Notation "'saving_notice'" :=
  (EvInfo ("[*] Done! Saving to " ++ dquote ++ the_file ++ dquote)%string).
Local Notation "'parsed'" := (parse_navtree navigation_tree).
Local Notation "'completions' items" :=
  (as_completed (submit_all session_get create_soup items)) (at level 10).
Local Notation "'fetch' control" :=
  (fetch_control session_get create_soup control) (at level 10).
Local Notation "'start'" :=
  {| data := initial_data BENCHMARK_TITLE; trace := fst parsed |}.
Local Notation "'looped' items" :=
  (fst (drain (List.length items) (completions items) 0 start)) (at level 10).

(** X9 - when the navigation tree cannot be fetched, or a node that must be
    described misses a key, the run dies of that exception right after the
    first notice: nothing is fetched, stored or written. *)
Theorem navigation_failure_aborts :
  let aborted :=
    {| data := {| title := BENCHMARK_TITLE; controls := []; total := None |};
       trace := [EvInfo "[*] Parsing navigation tree"] |} in
  match navigation_tree with
  | Raise e => the_run = (aborted, Uncaught e)
  | Ok tree =>
      match first_key_error
              (flat_map (fun n => filter lacks_subsections (postorder n)) tree) with
      | Some k => the_run = (aborted, Uncaught (KeyError k))
      | None =>
          exists items,
            parsed = ([EvInfo "[*] Parsing navigation tree";
                       EvInfo "[*] Parsing completed"], Ok items)
            /\ List.length items
               = List.length
                   (flat_map (fun n => filter lacks_subsections (postorder n)) tree)
      end
  end.
Proof.
  intros aborted. unfold main, parse_navtree.
  destruct navigation_tree as [tree|e]; [|reflexivity].
  pose proof (extract_each_key_error tree []) as H.
  destruct (first_key_error _) as [k|].
  - now rewrite H.
  - destruct H as (items & -> & Hlen). now exists items.
Qed.

(** The trace and the data of a run in which nothing failed. *)
Lemma main_success (items : list LeafItem) :
  snd parsed = Ok items ->
  all_ok (completions items) ->
  the_run = saved (looped items)
  /\ trace (looped items)
     = fst parsed
       ++ map (fun k => EvProgress k (List.length items))
              (seq 1 (List.length (completions items))).
Proof.
  intros Hp Hall.
  destruct (main_cases session_get create_soup navigation_tree as_completed
              BENCHMARK_TITLE FORMAT OUTPUT path_str open_w items Hp) as [Ht Hm].
  destruct (first_failure_all_ok _ Hall) as [Hff Hlen].
  rewrite Hff in Ht, Hm. rewrite Hlen, app_nil_r in Ht. now split.
Qed.

(** A run finishes only after [open] returned. *)
Lemma main_finished (st : run_state) :
  the_run = (st, Finished) -> open_w the_file = None.
Proof.
  destruct (snd parsed) as [items|e] eqn:Hp.
  - destruct (main_cases session_get create_soup navigation_tree as_completed
                BENCHMARK_TITLE FORMAT OUTPUT path_str open_w items Hp)
      as [_ Hm].
    rewrite Hm.
    destruct (first_failure (completions items)) as [[c e]|]; [discriminate|].
    destruct (save_data BENCHMARK_TITLE FORMAT OUTPUT path_str open_w
                (looped items)) as (_ & _ & _ & Hs).
    rewrite Hs. unfold output_file, output_name.
    now destruct (open_w the_file).
  - rewrite (main_unparsed session_get create_soup navigation_tree as_completed
               BENCHMARK_TITLE FORMAT OUTPUT path_str open_w e Hp).
    discriminate.
Qed.

Section Completion.
Hypothesis every_future_completes :
  forall fs, Permutation (as_completed fs) fs.

Lemma completions_length (items : list LeafItem) :
  List.length (completions items) = List.length items.
Proof.
  rewrite (Permutation_length (every_future_completes _)).
  unfold submit_all. apply length_map.
Qed.

Lemma completions_ok_iff (items : list LeafItem) :
  all_ok (completions items)
  <-> forall c, In c items -> failed (fetch c) = false.
Proof.
  split.
  - intros Hall c Hc. unfold all_ok in Hall. rewrite Forall_forall in Hall.
    apply (Hall (c, fetch c)).
    now apply (completions_in session_get create_soup as_completed
                 every_future_completes).
  - apply (completions_all_ok session_get create_soup as_completed
             every_future_completes).
Qed.



(** X12 - when every fetch succeeds, each id ends up mapped to the record of
    the last completion that carried it, ids that occur several times
    share one entry, and [total] counts the distinct ids. *)
Theorem last_write_wins (items : list LeafItem) :
  snd parsed = Ok items ->
  (forall c, In c items -> failed (fetch c) = false) ->
  exists st,
    the_run = (st, ending)
    /\ (forall control_id,
          Dict.get value_eqb (controls (data st)) control_id
          = last_for control_id (completions items))
    /\ NoDup (Dict.keys (controls (data st)))
    /\ (forall control_id,
          In control_id (Dict.keys (controls (data st)))
          <-> In control_id (map item_id items))
    /\ total (data st) = Some (Dict.len (controls (data st)))
    /\ Dict.len (controls (data st)) <= List.length items.
Proof.
  intros Hp Hok. apply completions_ok_iff in Hok.
  destruct (main_success items Hp Hok) as [Hm _].
  destruct (save_data BENCHMARK_TITLE FORMAT OUTPUT path_str open_w
              (looped items)) as (Hc & Htot & _ & Hs).
  destruct (drain_all_ok (List.length items) (completions items) 0 start Hok)
    as (Hget & Hkeys & Hnd & Hlen).
  eexists. split; [rewrite Hm; exact Hs|]. rewrite Htot, Hc.
  split; [|split; [|split; [|split]]].
  - intros control_id. rewrite Hget.
    now destruct (last_for control_id (completions items)).
  - apply Hnd. constructor.
  - intros control_id. rewrite Hkeys. simpl. unfold ids_of.
    split.
    + intros [[]|H].
      now apply (Permutation_in _ (completions_ids session_get create_soup
                                     as_completed every_future_completes items)).
    + intros H. right.
      now apply (Permutation_in _ (Permutation_sym
                   (completions_ids session_get create_soup
                      as_completed every_future_completes items))).
  - reflexivity.
  - simpl in Hlen. now rewrite completions_length in Hlen.
Qed.

Lemma collected_records (completed : list future) :
  all_ok completed ->
  map (fun kv : value * ControlRecord => (fst kv, Ok (snd kv))) (collected completed)
  = map (fun f : future => (item_id (fst f), snd f)) completed.
Proof.
  induction 1 as [|[c [r|e]] l H _ IH]; simpl.
  - reflexivity.
  - unfold collected in *. simpl. now rewrite IH.
  - discriminate.
Qed.

(** A run with distinct ids in which nothing failed. *)
Lemma main_distinct (items : list LeafItem) :
  snd parsed = Ok items ->
  NoDup (map item_id items) ->
  (forall c, In c items -> failed (fetch c) = false) ->
  exists st,
    the_run = (st, ending)
    /\ controls (data st) = collected (completions items)
    /\ all_ok (completions items)
    /\ total (data st) = Some (Dict.len (controls (data st)))
    /\ title (data st) = BENCHMARK_TITLE.
Proof.
  intros Hp Hnd Hok. apply completions_ok_iff in Hok.
  destruct (main_success items Hp Hok) as [Hm _].
  destruct (save_data BENCHMARK_TITLE FORMAT OUTPUT path_str open_w
              (looped items)) as (Hc & Htot & Hti & Hs).
  eexists. split; [rewrite Hm; exact Hs|]. rewrite Htot, Hc, Hti.
  rewrite drain_controls; [|exact Hok|].
  - repeat split; [exact Hok|].
    now destruct (drain_total (List.length items) (completions items) 0 start).
  - simpl. apply (Permutation_NoDup
                    (Permutation_sym
                       (completions_ids session_get create_soup as_completed
                          every_future_completes items)) Hnd).
Qed.

(** X13 - with pairwise distinct ids and every fetch successful, the entries of
    the controls map, and so the rows of the tabular output, follow the
    order in which the fetches completed, each holding what its fetch
    returned. *)
Theorem entries_in_completion_order (items : list LeafItem) :
  snd parsed = Ok items ->
  NoDup (map item_id items) ->
  (forall c, In c items -> failed (fetch c) = false) ->
  exists st,
    the_run = (st, ending)
    /\ map (fun kv : value * ControlRecord => (fst kv, Ok (snd kv)))
           (controls (data st))
       = map (fun f : future => (item_id (fst f), snd f)) (completions items)
    /\ map (fun row => Ok row) (tl (csv_rows (data st)))
       = map (fun f : future => record <- snd f ;; Ok (Dict.values record))
             (completions items).
Proof.
  intros Hp Hnd Hok.
  destruct (main_distinct items Hp Hnd Hok) as (st & Hm & Hc & Hall & _).
  exists st. split; [exact Hm|]. rewrite <- (collected_records _ Hall), <- Hc.
  split; [reflexivity|].
  unfold csv_rows. simpl tl. rewrite Hc. clear - Hall.
  induction Hall as [|[c [r|e]] l H _ IH]; simpl.
  - reflexivity.
  - unfold collected in *. simpl. now rewrite <- IH.
  - discriminate.
Qed.

(** X14 - when a fetch raises, [total] is never set and the controls map holds
    only what completed before the failure; none of it is written. *)
Theorem failure_discards (items : list LeafItem) (control : LeafItem) :
  snd parsed = Ok items ->
  In control items ->
  failed (fetch control) = true ->
  let before :=
    firstn (ok_prefix_len (completions items)) (completions items) in
  total (data (fst the_run)) = None
  /\ title (data (fst the_run)) = BENCHMARK_TITLE
  /\ (forall control_id,
        Dict.get value_eqb (controls (data (fst the_run))) control_id
        = last_for control_id before)
  /\ List.length before < List.length items
  /\ Dict.len (controls (data (fst the_run))) <= List.length before
  /\ writes (trace (fst the_run)) = [].
Proof.
  intros Hp Hin Hf before.
  assert (Hc : In (control, fetch control) (completions items))
    by now apply (completions_in session_get create_soup as_completed
                    every_future_completes).
  destruct (first_failure_some _ _ Hc Hf) as (culprit & e & Hff & _).
  destruct (main_failure session_get create_soup navigation_tree as_completed
              BENCHMARK_TITLE FORMAT OUTPUT path_str open_w items culprit e Hp Hff)
    as (st & Hm & Hw & _).
  destruct (main_cases session_get create_soup navigation_tree as_completed
              BENCHMARK_TITLE FORMAT OUTPUT path_str open_w items Hp) as [_ Hm'].
  rewrite Hff in Hm'. rewrite Hm'. simpl fst.
  rewrite Hm in Hm'. injection Hm' as ->.
  destruct (drain_total (List.length items) (completions items) 0 start) as [Ht Hti].
  destruct (drain_ok_prefix (List.length items) (completions items) 0 start)
    as [Hd Hall].
  fold before in Hd, Hall.
  destruct (drain_all_ok (List.length items) before 0 start Hall)
    as (Hget & _ & _ & Hlen).
  split; [exact Ht|split; [exact Hti|]].
  rewrite Hd. split; [|split; [|split]].
  - intros control_id. rewrite Hget. now destruct (last_for control_id before).
  - rewrite <- completions_length. unfold before.
    clear - Hff. induction (completions items) as [|[c [r|e']] l IH]; simpl in *.
    + discriminate.
    + apply IH in Hff. lia.
    + lia.
  - exact Hlen.
  - exact Hw.
Qed.


End Completion.
End MainMore.

(** ** Title, version and file name *)

Lemma str_split_cons (sep : ascii) (s : string) :
  exists w ws, str_split sep s = w :: ws.
Proof.
  destruct s as [|c r]; simpl; [now eexists; eexists|].
  destruct (Ascii.eqb c sep); [now eexists; eexists|].
  destruct (str_split sep r); now eexists; eexists.
Qed.

Lemma str_join_cons (sep w : string) (ws : list string) :
  ws <> [] -> str_join sep (w :: ws) = (w ++ sep ++ str_join sep ws)%string.
Proof. destruct ws; [contradiction|reflexivity]. Qed.

Lemma append_assoc (a b c : string) : ((a ++ b) ++ c = a ++ (b ++ c))%string.
Proof. induction a as [|x a IH]; simpl; [reflexivity|]. now rewrite IH. Qed.

Lemma append_empty_r (a : string) : (a ++ "")%string = a.
Proof. induction a as [|x a IH]; simpl; [reflexivity|]. now rewrite IH. Qed.

Lemma str_join_snoc (sep v : string) (ws : list string) :
  ws <> [] -> str_join sep (ws ++ [v]) = (str_join sep ws ++ sep ++ v)%string.
Proof.
  induction ws as [|w ws IH]; [contradiction|]. intros _.
  destruct ws as [|w' ws].
  - reflexivity.
  - change ((w :: w' :: ws) ++ [v]) with (w :: ((w' :: ws) ++ [v])).
    rewrite str_join_cons by (destruct ws; discriminate).
    rewrite IH by discriminate.
    rewrite (str_join_cons sep w (w' :: ws)) by discriminate.
    now rewrite !append_assoc.
Qed.

(** Joining what was split gives the string back. *)
Lemma str_join_split (sep : ascii) (s : string) :
  str_join (String sep EmptyString) (str_split sep s) = s.
Proof.
  induction s as [|c r IH]; [reflexivity|].
  simpl str_split. destruct (Ascii.eqb c sep) eqn:E.
  - apply Ascii.eqb_eq in E. subst c.
    destruct (str_split_cons sep r) as (w & ws & Hw).
    rewrite str_join_cons by (rewrite Hw; discriminate).
    now rewrite IH.
  - destruct (str_split_cons sep r) as (w & ws & Hw). rewrite Hw in *.
    destruct ws as [|w' ws].
    + simpl in *. now rewrite IH.
    + rewrite str_join_cons by discriminate.
      rewrite str_join_cons in IH by discriminate.
      cbn [append] in *. now f_equal.
Qed.

Lemma str_split_words (sep : ascii) (s : string) :
  Forall (fun w => occurs sep w = false) (str_split sep s).
Proof.
  induction s as [|c r IH]; simpl.
  - now constructor.
  - destruct (Ascii.eqb c sep) eqn:E.
    + now constructor.
    + destruct (str_split sep r) as [|w ws].
      * constructor; [|constructor]. simpl. now rewrite E.
      * inversion IH as [|? ? Hw Hws]; subst.
        constructor; [|exact Hws]. simpl. now rewrite E, Hw.
Qed.

Lemma str_split_single (sep : ascii) (s : string) :
  if occurs sep s
  then exists w w' ws, str_split sep s = w :: w' :: ws
  else str_split sep s = [s].
Proof.
  induction s as [|c r IH]; simpl; [reflexivity|].
  destruct (Ascii.eqb c sep) eqn:E; simpl.
  - destruct (str_split_cons sep r) as (w & ws & ->). now do 3 eexists.
  - destruct (occurs sep r).
    + destruct IH as (w & w' & ws & ->). now do 3 eexists.
    + now rewrite IH.
Qed.

Lemma replace_occurs (old new : ascii) (s : string) :
  (old <> new -> occurs old (replace old new s) = false)
  /\ String.length (replace old new s) = String.length s
  /\ (occurs old s = false -> replace old new s = s).
Proof.
  induction s as [|c r (IH1 & IH2 & IH3)]; simpl; [now repeat split|].
  split; [|split].
  - intros Hne. rewrite (IH1 Hne), orb_false_r.
    destruct (Ascii.eqb c old) eqn:E; [|exact E].
    apply Ascii.eqb_neq. congruence.
  - now rewrite IH2.
  - intros H. apply orb_false_iff in H as [Hc Hr]. now rewrite Hc, (IH3 Hr).
Qed.

Lemma replace_app (old new : ascii) (a b : string) :
  replace old new (a ++ b) = (replace old new a ++ replace old new b)%string.
Proof. induction a as [|c a IH]; simpl; [reflexivity|]. now rewrite IH. Qed.

(** Replacing the separator in a joined list joins with the replacement. *)
Lemma replace_join (old new : ascii) (ws : list string) :
  Forall (fun w => occurs old w = false) ws ->
  replace old new (str_join (String old EmptyString) ws)
  = str_join (String new EmptyString) ws.
Proof.
  induction 1 as [|w ws Hw Hws IH]; [reflexivity|].
  destruct ws as [|w' ws].
  - simpl. now apply replace_occurs.
  - rewrite !str_join_cons by discriminate.
    rewrite !replace_app, IH. simpl. rewrite Ascii.eqb_refl.
    now rewrite (proj2 (proj2 (replace_occurs old new w)) Hw).
Qed.

Lemma Forall_removelast {A : Type} (P : A -> Prop) (l : list A) :
  Forall P l -> Forall P (removelast l).
Proof.
  induction 1 as [|x l Hx Hl IH]; simpl; [constructor|].
  destruct l; [constructor|]. now constructor.
Qed.

(** The title and version computed from the [title] attribute. *)
Lemma pop_last_split (attribute : string) :
  exists version words,
    pop_last (str_split " " attribute) = Done (version, words)
    /\ words = removelast (str_split " " attribute)
    /\ occurs " " version = false
    /\ Forall (fun w => occurs " " w = false) words
    /\ (if occurs " " attribute
        then words <> []
             /\ attribute = (str_join " " words ++ " " ++ version)%string
        else words = [] /\ version = attribute).
Proof.
  pose proof (str_split_words " " attribute) as Hwords.
  pose proof (str_join_split " " attribute) as Hjoin.
  pose proof (str_split_single " " attribute) as Hsingle.
  destruct (str_split_cons " " attribute) as (w & ws & E).
  rewrite E in *. exists (last ws w), (removelast (w :: ws)).
  split; [reflexivity|split; [reflexivity|]].
  assert (Hlast : w :: ws = removelast (w :: ws) ++ [last ws w]).
  { rewrite (app_removelast_last w) at 1 by discriminate.
    f_equal. f_equal. now destruct ws. }
  split; [|split].
  - rewrite Forall_forall in Hwords. apply Hwords.
    rewrite Hlast. apply in_app_iff. right. now left.
  - now apply Forall_removelast.
  - destruct (occurs " " attribute).
    + destruct Hsingle as (a & b & l & [= -> ->]).
      split; [simpl; destruct l; discriminate|].
      rewrite <- Hjoin at 1. rewrite Hlast at 1.
      apply str_join_snoc. simpl. destruct l; discriminate.
    + injection Hsingle as -> ->. now split.
Qed.

(** X17 - the output file name has the title's length, no space, and is the
    title's words joined by underscores. *)
Theorem output_filename_underscores (BENCHMARK_TITLE : string) :
  occurs " " (OUTPUT_FILENAME BENCHMARK_TITLE) = false
  /\ String.length (OUTPUT_FILENAME BENCHMARK_TITLE) = String.length BENCHMARK_TITLE
  /\ OUTPUT_FILENAME BENCHMARK_TITLE = str_join "_" (str_split " " BENCHMARK_TITLE)
  /\ (occurs " " BENCHMARK_TITLE = false
      -> OUTPUT_FILENAME BENCHMARK_TITLE = BENCHMARK_TITLE).
Proof.
  unfold OUTPUT_FILENAME.
  destruct (replace_occurs " " "_" BENCHMARK_TITLE) as (H1 & H2 & H3).
  split; [apply H1; discriminate|split; [exact H2|split; [|exact H3]]].
  rewrite <- (str_join_split " " BENCHMARK_TITLE) at 1.
  apply replace_join, str_split_words.
Qed.

Lemma output_filename_underscores_witness :
  OUTPUT_FILENAME "v1.0.0" = "v1.0.0".
Proof.
  apply (proj2 (proj2 (proj2 (output_filename_underscores "v1.0.0")))).
  reflexivity.
Defined.

Lemma occurs_app (c : ascii) (a b : string) :
  occurs c (a ++ b) = occurs c a || occurs c b.
Proof.
  induction a as [|x a IH]; simpl; [reflexivity|].
  now rewrite IH, orb_assoc.
Qed.

Lemma occurs_split (c sep : ascii) (s : string) :
  occurs c s = false -> Forall (fun w => occurs c w = false) (str_split sep s).
Proof.
  induction s as [|x r IH]; simpl; intros H.
  - now constructor.
  - apply orb_false_iff in H as [Hx Hr]. specialize (IH Hr).
    destruct (Ascii.eqb x sep).
    + now constructor.
    + destruct (str_split sep r) as [|w ws].
      * constructor; [|constructor]. simpl. now rewrite Hx.
      * inversion IH as [|? ? Hw Hws]; subst.
        constructor; [|exact Hws]. simpl. now rewrite Hx, Hw.
Qed.

Lemma occurs_join (c : ascii) (sep : string) (ws : list string) :
  occurs c sep = false ->
  Forall (fun w => occurs c w = false) ws ->
  occurs c (str_join sep ws) = false.
Proof.
  intros Hsep. induction 1 as [|w ws Hw Hws IH]; [reflexivity|].
  destruct ws as [|w' ws]; [exact Hw|].
  rewrite str_join_cons by discriminate.
  now rewrite !occurs_app, Hw, Hsep, IH.
Qed.

Section StartupFacts.
Variable is_file : string -> bool.
Variable is_dir : string -> bool.
Variable load_credentials : string -> startup_result (list (string * value)).
Variable mkdir : string -> option startup_exn.
Variable http_text : headers -> string -> result string.
Variable http_navtree : headers -> string -> result (list node).
Variable parse_landing : string -> list tag.
Variable create_soup : string -> soup.
Variable as_completed : list future -> list future.
Variable path_str : string -> string -> string.
Variable open_w : string -> option exn.

Local Notation "'start_up' args" :=
  (init is_file is_dir load_credentials mkdir http_text parse_landing args)
  (at level 10).
Local Notation "'title_and_version' sent id" :=
  (get_title_and_version http_text parse_landing sent id)
  (at level 10, sent at level 9, id at level 9).

Lemma get_title_and_version_cases (sent : headers) (BENCHMARK_ID : string) :
  let url := (BASE_URL ++ "/" ++ BENCHMARK_ID)%string in
  let begun :=
    [SePrint "[*] Scraping benchmark title and version"; SeGet sent url] in
  (exists e, title_and_version sent BENCHMARK_ID = (begun, Failed e))
  \/ exists html found attribute version words,
       http_text sent url = Ok html
       /\ find_tag (parse_landing html) "wb-benchmark-title" = Some found
       /\ Dict.get String.eqb (tag_attrs found) "title" = Some attribute
       /\ pop_last (str_split " " attribute) = Done (version, words)
       /\ title_and_version sent BENCHMARK_ID
          = (begun ++ [SePrint ("[*] Found: " ++ str_join " " words
                                ++ " - " ++ version)],
             Done (str_join " " words, version)).
Proof.
  intros url begun. unfold get_title_and_version. fold url. fold begun.
  destruct (http_text sent url) as [html|e] eqn:Hget; [|left; eauto].
  destruct (find_tag (parse_landing html) "wb-benchmark-title") as [found|]
    eqn:Hfind; [|left; eauto].
  destruct (Dict.get String.eqb (tag_attrs found) "title") as [attribute|]
    eqn:Hattr; [|left; eauto].
  destruct (pop_last_split attribute) as (version & words & Hpop & _).
  rewrite Hpop. right. exists html, found, attribute, version, words.
  repeat split; assumption.
Qed.

(** X18 - from a [title] attribute [s] the title is everything before the last
    space and the version everything after it, so that title, a space and
    the version give [s] back; without a space the title is empty and the
    version is [s].  The split never fails. *)
Theorem title_and_version_round_trip (sent : headers)
  (BENCHMARK_ID html attribute : string) (found : tag) :
  http_text sent (BASE_URL ++ "/" ++ BENCHMARK_ID) = Ok html ->
  find_tag (parse_landing html) "wb-benchmark-title" = Some found ->
  Dict.get String.eqb (tag_attrs found) "title" = Some attribute ->
  exists title version,
    snd (title_and_version sent BENCHMARK_ID) = Done (title, version)
    /\ occurs " " version = false
    /\ (if occurs " " attribute
        then attribute = (title ++ " " ++ version)%string
        else title = "" /\ version = attribute)
    /\ OUTPUT_FILENAME title
       = str_join "_" (removelast (str_split " " attribute)).
Proof.
  intros Hget Hfind Hattr. unfold get_title_and_version.
  rewrite Hget, Hfind, Hattr.
  destruct (pop_last_split attribute)
    as (version & words & Hpop & Hwords & Hv & Hw & Hs).
  rewrite Hpop. simpl. exists (str_join " " words), version.
  split; [reflexivity|split; [exact Hv|split]].
  - destruct (occurs " " attribute).
    + exact (proj2 Hs).
    + destruct Hs as [-> ->]. now split.
  - rewrite <- Hwords. unfold OUTPUT_FILENAME. now apply replace_join.
Qed.

(** X19 - without the credential file the constructor prints its message and
    exits with status 1; no directory is made and no request is sent unless
    the file exists and holds both tokens, and only then can the
    constructor return. *)
Theorem startup_gate (args : Args) :
  let ready :=
    is_file (arg_credential_file args) = true
    /\ exists credential_data xsrf_token workbench_session,
         load_credentials (arg_credential_file args) = Done credential_data
         /\ Dict.get String.eqb credential_data "xsrf_token" = Some xsrf_token
         /\ Dict.get String.eqb credential_data "workbench_session"
            = Some workbench_session in
  (is_file (arg_credential_file args) = false ->
   start_up args
   = ([SePrint "Unable to locate the credential file! Exiting..."], StartExit 1))
  /\ (forall ev, In ev (fst (start_up args)) -> reaches_out ev = true -> ready)
  /\ (forall s, snd (start_up args) = Started s -> ready).
Proof.
  intros ready. unfold init.
  destruct (is_file (arg_credential_file args)) eqn:Hfile; simpl.
  2:{ split; [reflexivity|]. split.
      - intros ev [<-|[]]. discriminate.
      - discriminate. }
  split; [discriminate|].
  destruct (load_credentials (arg_credential_file args)) as [creds|e] eqn:Hload;
    [|split; [intros ev []|discriminate]].
  destruct (Dict.get String.eqb creds "xsrf_token") as [x|] eqn:Hx;
    [|split; [intros ev []|discriminate]].
  destruct (Dict.get String.eqb creds "workbench_session") as [w|] eqn:Hw;
    [|split; [intros ev []|discriminate]].
  assert (Hready : ready) by (split; [reflexivity|]; eauto 6).
  split; intros; exact Hready.
Qed.

(** Everything known about a constructor that returned. *)
Lemma init_started (args : Args) (tr : list startup_event) (s : Scraper) :
  start_up args = (tr, Started s) ->
  exists credential_data xsrf_token workbench_session html found attribute
         version words,
    load_credentials (arg_credential_file args) = Done credential_data
    /\ Dict.get String.eqb credential_data "xsrf_token" = Some xsrf_token
    /\ Dict.get String.eqb credential_data "workbench_session"
       = Some workbench_session
    /\ http_text (s_headers s) (BASE_URL ++ "/" ++ arg_id args) = Ok html
    /\ find_tag (parse_landing html) "wb-benchmark-title" = Some found
    /\ Dict.get String.eqb (tag_attrs found) "title" = Some attribute
    /\ pop_last (str_split " " attribute) = Done (version, words)
    /\ s = {| s_headers := [ ("Cookie", cookie xsrf_token workbench_session);
                            ("User-Agent", USER_AGENT) ];
              s_benchmark_id := arg_id args;
              s_num_threads := arg_threads args;
              s_format := arg_format args;
              s_output := wanted_output args;
              s_title := str_join " " words;
              s_version := version;
              s_data := initial_data (str_join " " words);
              s_output_filename := OUTPUT_FILENAME (str_join " " words) |}
    /\ tr = (if is_dir (wanted_output args) then []
             else [SeMkdir (wanted_output args)])
            ++ [ SePrint "[*] Scraping benchmark title and version";
                 SeGet (s_headers s) (BASE_URL ++ "/" ++ arg_id args)%string;
                 SePrint ("[*] Found: " ++ str_join " " words
                          ++ " - " ++ version) ].
Proof.
  unfold init.
  destruct (is_file (arg_credential_file args)); cbn [negb]; [|discriminate].
  destruct (load_credentials (arg_credential_file args)) as [creds|e];
    [|discriminate].
  destruct (Dict.get String.eqb creds "xsrf_token") as [x|] eqn:Hx;
    [|discriminate].
  destruct (Dict.get String.eqb creds "workbench_session") as [w|] eqn:Hw;
    [|discriminate].
  fold (cookie x w).
  replace (match arg_output_path args with
           | Some path => if negb (truthy path) then "output" else path
           | None => "output"
           end) with (wanted_output args)
    by (unfold wanted_output; destruct (arg_output_path args) as [p|];
        [destruct (truthy p)|]; reflexivity).
  unfold create_path.
  set (sent := [("Cookie", cookie x w); ("User-Agent", USER_AGENT)]).
  destruct (get_title_and_version_cases sent (arg_id args))
    as [[e He]|(html & found & attribute & version & words
                & Hget & Hfind & Hattr & Hpop & He)].
  - rewrite He.
    destruct (is_dir (wanted_output args)); cbn [negb];
      [|destruct (mkdir (wanted_output args))]; discriminate.
  - rewrite He. intros H.
    exists creds, x, w, html, found, attribute, version, words.
    destruct (is_dir (wanted_output args)); cbn [negb] in H.
    + injection H as <- <-. repeat split; assumption.
    + destruct (mkdir (wanted_output args)); [discriminate|].
      injection H as <- <-. repeat split; assumption.
Qed.

(** X20 - what a constructor that returned has done, in order: made the output
    directory if it was not there, then sent one request, for the landing
    page of the benchmark, carrying the cookie built from the two tokens.
    The directory is the given one, or [output] when none (or an empty one)
    was given. *)
Theorem started_trace (args : Args) (tr : list startup_event) (s : Scraper) :
  start_up args = (tr, Started s) ->
  exists credential_data xsrf_token workbench_session found_notice,
    load_credentials (arg_credential_file args) = Done credential_data
    /\ Dict.get String.eqb credential_data "xsrf_token" = Some xsrf_token
    /\ Dict.get String.eqb credential_data "workbench_session"
       = Some workbench_session
    /\ s_headers s
       = [ ("Cookie", cookie xsrf_token workbench_session);
           ("User-Agent", USER_AGENT) ]
    /\ s_output s = wanted_output args
    /\ tr = (if is_dir (wanted_output args) then []
             else [SeMkdir (wanted_output args)])
            ++ [ SePrint "[*] Scraping benchmark title and version";
                 SeGet (s_headers s) (BASE_URL ++ "/" ++ arg_id args)%string;
                 SePrint found_notice ]
    /\ s_data s = initial_data (s_title s)
    /\ s_output_filename s = OUTPUT_FILENAME (s_title s)
    /\ (s_benchmark_id s, s_num_threads s, s_format s)
       = (arg_id args, arg_threads args, arg_format args).
Proof.
  intros H.
  destruct (init_started args tr s H)
    as (creds & x & w & html & found & attribute & version & words
        & Hload & Hx & Hw & _ & _ & _ & _ & Hs & Htr).
  exists creds, x, w. eexists.
  split; [exact Hload|split; [exact Hx|split; [exact Hw|]]].
  split; [now rewrite Hs|split; [now rewrite Hs|split; [exact Htr|]]].
  rewrite Hs. repeat split.
Qed.

Local Notation "'run_of' s" :=
  (scraper_main http_text http_navtree create_soup as_completed
                path_str open_w s)
  (at level 10).

(** X22 - when the program finishes, the constructor had returned, the
    thread count was positive, and the one file written is the one opened
    at [Path(directory, name)]: the directory is the chosen one and the name
    is made of the words of the landing page's [title] attribute except the
    last, joined by underscores, with the format as extension.  The name
    holds no slash when the attribute holds none. *)
Theorem program_file_name (args : Args) (tr : list startup_event)
  (st : run_state) :
  (forall fs, Permutation (as_completed fs) fs) ->
  program is_file is_dir load_credentials mkdir http_text http_navtree
          parse_landing create_soup as_completed path_str open_w args
  = (tr, Some st, PFinished) ->
  exists s html found attribute content name,
    start_up args = (tr, Started s)
    /\ http_text (s_headers s) (BASE_URL ++ "/" ++ arg_id args) = Ok html
    /\ find_tag (parse_landing html) "wb-benchmark-title" = Some found
    /\ Dict.get String.eqb (tag_attrs found) "title" = Some attribute
    /\ (0 < arg_threads args)%Z
    /\ name = (str_join "_" (removelast (str_split " " attribute))
               ++ "." ++ format_str (arg_format args))%string
    /\ open_w (path_str (wanted_output args) name) = None
    /\ writes (trace st) = [EvWrite (wanted_output args) name content]
    /\ (occurs "/" attribute = false -> occurs "/" name = false).
Proof.
  intros Hperm. unfold program.
  destruct (start_up args) as [tr' [s|code|e]] eqn:Hinit; try discriminate.
  destruct (run_of s) as [st' o] eqn:Hrun. intros [= -> -> ->].
  destruct (init_started args tr s Hinit)
    as (creds & x & w & html & found & attribute & version & words
        & _ & _ & _ & Hget & Hfind & Hattr & Hpop & Hs & _).
  exists s, html, found, attribute.
  destruct (pop_last_split attribute)
    as (version' & words' & Hpop' & Hwords & _ & Hnospace & _).
  rewrite Hpop in Hpop'. injection Hpop' as <- <-.
  unfold scraper_main in Hrun.
  destruct (Z.ltb_spec 0 (s_num_threads s)) as [Hlt|_].
  - destruct (main _ _ _ _ _ _ _ _ _) as [st1 o1] eqn:Hmain.
    injection Hrun as -> Ho. destruct o1; try discriminate.
    destruct (main_records _ _ _ _ _ _ _ _ _ Hperm _ Hmain) as [_ Hw].
    pose proof (main_finished _ _ _ _ _ _ _ _ _ _ Hmain) as Hopen.
    assert (Hname : (OUTPUT_FILENAME (s_title s) ++ "." ++ format_str (s_format s))%string
                    = (str_join "_" (removelast (str_split " " attribute))
                       ++ "." ++ format_str (arg_format args))%string).
    { rewrite Hs. simpl. unfold OUTPUT_FILENAME.
      rewrite replace_join by exact Hnospace. now rewrite Hwords. }
    rewrite Hname in Hw, Hopen.
    assert (Hout : s_output s = wanted_output args) by now rewrite Hs.
    rewrite Hout in Hw, Hopen.
    do 2 eexists. repeat split; try eassumption.
    + rewrite Hs in Hlt. exact Hlt.
    + intros Hslash. rewrite !occurs_app.
      rewrite (occurs_join "/" "_" (removelast (str_split " " attribute)))
        by (try reflexivity;
            apply Forall_removelast; now apply occurs_split).
      now destruct (arg_format args).
  - destruct (parse_navtree _) as [printed [items|e]];
      injection Hrun as _ Ho; discriminate.
Qed.

End StartupFacts.

(** ** The completion order *)

Lemma get_in {V : Type} (d : list (value * V)) (k : value) (v : V) :
  Dict.get value_eqb d k = Some v -> In (k, v) d.
Proof.
  induction d as [|[k0 v0] d IH]; simpl; [discriminate|].
  destruct (value_eqb k0 k) eqn:E.
  - apply value_eqb_eq in E. subst k0. intros [= ->]. now left.
  - intros H. right. now apply IH.
Qed.

Lemma get_permutation {V : Type} (d1 d2 : list (value * V)) (k : value) :
  Permutation d1 d2 -> NoDup (Dict.keys d1) ->
  Dict.get value_eqb d1 k = Dict.get value_eqb d2 k.
Proof.
  intros Hp Hnd.
  assert (Hk : Permutation (Dict.keys d1) (Dict.keys d2))
    by now apply Permutation_map.
  assert (Hnd2 : NoDup (Dict.keys d2)) by now apply (Permutation_NoDup Hk).
  destruct (Dict.get value_eqb d1 k) as [v|] eqn:E.
  - symmetry. apply get_unique; [exact Hnd2|].
    apply (Permutation_in _ Hp). now apply get_in.
  - symmetry. apply get_none. apply get_none in E.
    intros H. apply E. now apply (Permutation_in _ (Permutation_sym Hk)).
Qed.

(** X16 - with pairwise distinct ids and every fetch successful, two completion
    orders give the same entries (in a different order), the same record
    under every id and the same [total]. *)
Theorem schedule_independent
  (session_get : string -> result string) (create_soup : string -> soup)
  (navigation_tree : result (list node))
  (first second : list future -> list future)
  (BENCHMARK_TITLE : string) (FORMAT : format) (OUTPUT : string)
  (path_str : string -> string -> string) (open_w : string -> option exn)
  (items : list LeafItem) :
  (forall fs, Permutation (first fs) fs) ->
  (forall fs, Permutation (second fs) fs) ->
  snd (parse_navtree navigation_tree) = Ok items ->
  NoDup (map item_id items) ->
  (forall c, In c items -> failed (fetch_control session_get create_soup c) = false) ->
  let one := data (fst (main session_get create_soup navigation_tree first
                             BENCHMARK_TITLE FORMAT OUTPUT path_str open_w)) in
  let other := data (fst (main session_get create_soup navigation_tree second
                               BENCHMARK_TITLE FORMAT OUTPUT path_str open_w)) in
  Permutation (controls one) (controls other)
  /\ (forall control_id,
        Dict.get value_eqb (controls one) control_id
        = Dict.get value_eqb (controls other) control_id)
  /\ total one = total other
  /\ title one = title other.
Proof.
  intros H1 H2 Hp Hnd Hok one other.
  destruct (main_distinct session_get create_soup navigation_tree first
              BENCHMARK_TITLE FORMAT OUTPUT path_str open_w H1 items Hp Hnd Hok)
    as (st1 & Hm1 & Hc1 & Hall1 & Ht1 & Hti1).
  destruct (main_distinct session_get create_soup navigation_tree second
              BENCHMARK_TITLE FORMAT OUTPUT path_str open_w H2 items Hp Hnd Hok)
    as (st2 & Hm2 & Hc2 & Hall2 & Ht2 & Hti2).
  subst one other. rewrite Hm1, Hm2. simpl fst.
  assert (Hperm : Permutation (controls (data st1)) (controls (data st2))).
  { rewrite Hc1, Hc2. unfold collected. apply Permutation_flat_map.
    rewrite H1. symmetry. apply H2. }
  split; [exact Hperm|]. split; [|split].
  - intros control_id. apply get_permutation; [exact Hperm|].
    rewrite Hc1, (keys_collected _ Hall1).
    apply (Permutation_NoDup
             (Permutation_sym
                (completions_ids session_get create_soup first H1 items)) Hnd).
  - rewrite Ht1, Ht2. unfold Dict.len. f_equal.
    now apply Permutation_length.
  - now rewrite Hti1, Hti2.
Qed.

(** Under one id, the record that stays is the one whose fetch completed
    last. *)
Example twins_follow_schedule :
  option_map (fun record => record_get record "title")
    (Dict.get value_eqb (controls (data (fst (run_twins in_order)))) (VStr "A"))
  = Some (Some (VStr "Ensure Y"))
  /\ option_map (fun record => record_get record "title")
       (Dict.get value_eqb (controls (data (fst (run_twins reversed)))) (VStr "A"))
     = Some (Some (VStr "Ensure X"))
  /\ total (data (fst (run_twins in_order))) = Some 1
  /\ snd (run_twins in_order) = Finished.
Proof. repeat split. Qed.

(** ** Sample runs, continued *)

Lemma in_order_completes (fs : list future) : Permutation (in_order fs) fs.
Proof. apply Permutation_refl. Qed.



Lemma last_write_wins_witness :
  exists st,
    run_twins reversed = (st, Finished)
    /\ (forall control_id,
          Dict.get value_eqb (controls (data st)) control_id
          = last_for control_id
              (reversed (submit_all session_up parse_sample
                           [sample_item;
                            {| item_id := VStr "A"; item_title := VStr "Ensure Y";
                               item_key := "1.2 Ensure Y";
                               item_url := item_url sample_item |}])))
    /\ NoDup (Dict.keys (controls (data st)))
    /\ (forall control_id,
          In control_id (Dict.keys (controls (data st)))
          <-> In control_id [VStr "A"; VStr "A"])
    /\ total (data st) = Some (Dict.len (controls (data st)))
    /\ Dict.len (controls (data st)) <= 2.
Proof.
  apply (last_write_wins session_up parse_sample (Ok [twins]) reversed
           "CIS Demo Benchmark" json "output" join_path open_ok reversed_completes).
  - reflexivity.
  - intros c [<-|[<-|[]]]; reflexivity.
Defined.

Lemma entries_in_completion_order_witness :
  exists st,
    run_full csv = (st, Finished)
    /\ map (fun kv : value * ControlRecord => (fst kv, Ok (snd kv)))
           (controls (data st))
       = map (fun f : future => (item_id (fst f), snd f))
             (reversed (submit_all session_up parse_sample [sample_item; group_item]))
    /\ map (fun row => Ok row) (tl (csv_rows (data st)))
       = map (fun f : future => record <- snd f ;; Ok (Dict.values record))
             (reversed (submit_all session_up parse_sample [sample_item; group_item])).
Proof.
  apply (entries_in_completion_order session_up parse_sample (Ok [group_G])
           reversed "CIS Demo Benchmark" csv "output" join_path open_ok reversed_completes
           [sample_item; group_item]).
  - reflexivity.
  - repeat constructor; simpl; intuition discriminate.
  - intros c [<-|[<-|[]]]; reflexivity.
Defined.

Lemma failure_discards_witness :
  total (data (fst run_ordered)) = None
  /\ title (data (fst run_ordered)) = "CIS Demo Benchmark"
  /\ (forall control_id,
        Dict.get value_eqb (controls (data (fst run_ordered))) control_id
        = last_for control_id
            (firstn 1 (in_order (submit_all session_only_A parse_sample
                                   [sample_item; group_item]))))
  /\ 1 < 2
  /\ Dict.len (controls (data (fst run_ordered))) <= 1
  /\ writes (trace (fst run_ordered)) = [].
Proof.
  apply (failure_discards session_only_A parse_sample (Ok [group_G]) in_order
           "CIS Demo Benchmark" json "output" join_path open_ok in_order_completes
           [sample_item; group_item] group_item).
  - reflexivity.
  - simpl. auto.
  - reflexivity.
Defined.


Lemma schedule_independent_witness :
  Permutation (controls (data (fst (run_full json))))
              (controls (data (fst (main session_up parse_sample (Ok [group_G])
                                      in_order "CIS Demo Benchmark" json "output" join_path open_ok))))
  /\ (forall control_id,
        Dict.get value_eqb (controls (data (fst (run_full json)))) control_id
        = Dict.get value_eqb
            (controls (data (fst (main session_up parse_sample (Ok [group_G])
                                    in_order "CIS Demo Benchmark" json "output" join_path open_ok))))
            control_id)
  /\ total (data (fst (run_full json)))
     = total (data (fst (main session_up parse_sample (Ok [group_G])
                           in_order "CIS Demo Benchmark" json "output" join_path open_ok)))
  /\ title (data (fst (run_full json)))
     = title (data (fst (main session_up parse_sample (Ok [group_G])
                           in_order "CIS Demo Benchmark" json "output" join_path open_ok))).
Proof.
  apply (schedule_independent session_up parse_sample (Ok [group_G])
           reversed in_order "CIS Demo Benchmark" json "output" join_path open_ok
           [sample_item; group_item] reversed_completes in_order_completes).
  - reflexivity.
  - repeat constructor; simpl; intuition discriminate.
  - intros c [<-|[<-|[]]]; reflexivity.
Defined.

Lemma title_and_version_round_trip_witness :
  exists title version,
    snd (get_title_and_version sample_http_text sample_landing [] "1234")
    = Done (title, version)
    /\ occurs " " version = false
    /\ "CIS Demo Benchmark v1.0.0" = (title ++ " " ++ version)%string
    /\ OUTPUT_FILENAME title
       = str_join "_" (removelast (str_split " " "CIS Demo Benchmark v1.0.0")).
Proof.
  apply (title_and_version_round_trip sample_http_text sample_landing [] "1234"
           "<html>" "CIS Demo Benchmark v1.0.0"
           (mkTag "wb-benchmark-title" [("title", "CIS Demo Benchmark v1.0.0")]));
    reflexivity.
Defined.

Lemma startup_gate_witness :
  init (fun _ => false) sample_is_dir sample_credentials sample_mkdir
       sample_http_text sample_landing sample_args
  = ([SePrint "Unable to locate the credential file! Exiting..."], StartExit 1)
  /\ (sample_is_file "creds.json" = true
      /\ exists credential_data xsrf_token workbench_session,
           sample_credentials "creds.json" = Done credential_data
           /\ Dict.get String.eqb credential_data "xsrf_token" = Some xsrf_token
           /\ Dict.get String.eqb credential_data "workbench_session"
              = Some workbench_session).
Proof.
  split.
  - apply (proj1 (startup_gate (fun _ => false) sample_is_dir sample_credentials
                    sample_mkdir sample_http_text sample_landing sample_args)).
    reflexivity.
  - apply (proj2 (proj2 (startup_gate sample_is_file sample_is_dir
                           sample_credentials sample_mkdir sample_http_text
                           sample_landing sample_args))
             (sample_scraper 10)).
    reflexivity.
Defined.

Lemma started_trace_witness :
  exists credential_data xsrf_token workbench_session found_notice,
    sample_credentials "creds.json" = Done credential_data
    /\ Dict.get String.eqb credential_data "xsrf_token" = Some xsrf_token
    /\ Dict.get String.eqb credential_data "workbench_session"
       = Some workbench_session
    /\ s_headers (sample_scraper 10)
       = [ ("Cookie", cookie xsrf_token workbench_session);
           ("User-Agent", USER_AGENT) ]
    /\ s_output (sample_scraper 10) = "output"
    /\ [ SeMkdir "output";
         SePrint "[*] Scraping benchmark title and version";
         SeGet (s_headers (sample_scraper 10))
               "https://workbench.cisecurity.org/benchmarks/1234";
         SePrint "[*] Found: CIS Demo Benchmark - v1.0.0" ]
       = [SeMkdir "output"]
         ++ [ SePrint "[*] Scraping benchmark title and version";
              SeGet (s_headers (sample_scraper 10))
                    (BASE_URL ++ "/" ++ "1234")%string;
              SePrint found_notice ]
    /\ s_data (sample_scraper 10) = initial_data "CIS Demo Benchmark"
    /\ s_output_filename (sample_scraper 10) = OUTPUT_FILENAME "CIS Demo Benchmark"
    /\ (s_benchmark_id (sample_scraper 10), s_num_threads (sample_scraper 10),
        s_format (sample_scraper 10))
       = ("1234", 10%Z, csv).
Proof.
  apply (started_trace sample_is_file sample_is_dir sample_credentials
           sample_mkdir sample_http_text sample_landing sample_args).
  reflexivity.
Defined.

Lemma program_file_name_witness :
  exists s html found attribute content name,
    init sample_is_file sample_is_dir sample_credentials sample_mkdir
         sample_http_text sample_landing sample_args
    = (fst (fst (program sample_is_file sample_is_dir sample_credentials
                   sample_mkdir sample_http_text sample_http_navtree
                   sample_landing parse_sample reversed join_path open_ok
                   sample_args)),
       Started s)
    /\ sample_http_text (s_headers s) (BASE_URL ++ "/" ++ "1234") = Ok html
    /\ find_tag (sample_landing html) "wb-benchmark-title" = Some found
    /\ Dict.get String.eqb (tag_attrs found) "title" = Some attribute
    /\ (0 < 10)%Z
    /\ name = (str_join "_" (removelast (str_split " " attribute))
               ++ "." ++ "csv")%string
    /\ open_ok (join_path "output" name) = None
    /\ writes (trace (fst run_sample_program))
       = [EvWrite "output" name content]
    /\ (occurs "/" attribute = false -> occurs "/" name = false).
Proof.
  apply (program_file_name sample_is_file sample_is_dir sample_credentials
           sample_mkdir sample_http_text sample_http_navtree sample_landing
           parse_sample reversed join_path open_ok sample_args _
           (fst run_sample_program) reversed_completes).
  reflexivity.
Defined.

Example sample_program_file :
  writes (trace (fst run_sample_program))
  = [ EvWrite "output" "CIS_Demo_Benchmark.csv"
        (CsvRows (csv_rows (data (fst run_sample_program)))) ]
  /\ snd run_sample_program = PFinished.
Proof. repeat split. Qed.
